(** * PiggyCell check-in bot: a shallow embedding of [checkin.py]

    The development follows the class [PiggyCellBot]: Python string
    operations used by the token validator, the [base64] decoder it calls,
    an effect monad for the logger, the clock, the network and the
    exceptions, and then the methods themselves, in source order. *)

From Stdlib Require Import ZArith List String Ascii Bool Lia QArith Qabs.
Import ListNotations.
Local Open Scope string_scope.
Local Open Scope Z_scope.

(** ** Python [str] operations *)

Module PyStr.

(** [len(s)] *)
Definition len (s : string) : Z := Z.of_nat (String.length s).

(** [s.startswith(p)] *)
Fixpoint startswith (s p : string) : bool :=
  match p, s with
  | EmptyString, _ => true
  | String c p', String d s' => Ascii.eqb c d && startswith s' p'
  | String _ _, EmptyString => false
  end.

(** [p in s] for strings: [p] occurs as a contiguous substring of [s]. *)
Fixpoint contains (p s : string) : bool :=
  startswith s p ||
  match s with
  | EmptyString => false
  | String _ s' => contains p s'
  end.

(** [c.lower()] on one code point below 256: the ASCII capitals and the
    Latin-1 capitals (all of 0xC0..0xDE but the multiplication sign). *)
Definition lower_char (c : ascii) : ascii :=
  let n := N_of_ascii c in
  if ((65 <=? n) && (n <=? 90))%N then ascii_of_N (n + 32)
  else if ((192 <=? n) && (n <=? 222) && negb (n =? 215))%N
       then ascii_of_N (n + 32)
  else c.

(** [s.lower()] *)
Fixpoint lower (s : string) : string :=
  match s with
  | EmptyString => EmptyString
  | String c s' => String (lower_char c) (lower s')
  end.

(** [s.count(c)] for a one-character needle. *)
Fixpoint count (c : ascii) (s : string) : Z :=
  match s with
  | EmptyString => 0
  | String d s' => (if Ascii.eqb c d then 1 else 0) + count c s'
  end.

(** [s.split(c)] for a one-character separator: never the empty list. *)
Fixpoint split (c : ascii) (s : string) : list string :=
  match s with
  | EmptyString => [EmptyString]
  | String d s' =>
      if Ascii.eqb c d then EmptyString :: split c s'
      else match split c s' with
           | [] => [String d EmptyString]
           | w :: ws => String d w :: ws
           end
  end.

(** [c * n] for a one-character string [c]; empty when [n <= 0]. *)
Definition repeat (c : ascii) (n : Z) : string :=
  string_of_list_ascii (List.repeat c (Z.to_nat n)).

(** [s[:n]] for [n >= 0]. *)
Fixpoint take (n : nat) (s : string) : string :=
  match n, s with
  | O, _ => EmptyString
  | S _, EmptyString => EmptyString
  | S n', String c s' => String c (take n' s')
  end.

(** [str(n)] for a non-negative integer, most significant digit first. *)
Fixpoint digits (fuel : nat) (n : Z) (acc : string) : string :=
  match fuel with
  | O => acc
  | S fuel' =>
      let acc' := String (ascii_of_N (48 + Z.to_N (n mod 10))) acc in
      if n <? 10 then acc' else digits fuel' (n / 10) acc'
  end.

(** [str(n)] for an integer. *)
Definition of_Z (n : Z) : string :=
  if n <? 0 then String "-" (digits (S (Z.to_nat (Z.log2 (- n)))) (- n) "")
  else digits (S (Z.to_nat (Z.log2 n))) n "".

(** [c.isspace()] on a code point below 256. *)
Definition is_space (c : ascii) : bool :=
  let n := N_of_ascii c in
  (((9 <=? n) && (n <=? 13)) || ((28 <=? n) && (n <=? 32))
   || (n =? 133) || (n =? 160))%N.

Fixpoint lstrip (s : string) : string :=
  match s with
  | String c s' => if is_space c then lstrip s' else s
  | EmptyString => EmptyString
  end.

Fixpoint rstrip (s : string) : string :=
  match s with
  | EmptyString => EmptyString
  | String c s' =>
      match rstrip s' with
      | EmptyString => if is_space c then EmptyString else String c EmptyString
      | t => String c t
      end
  end.

(** [s.strip()] *)
Definition strip (s : string) : string := rstrip (lstrip s).

End PyStr.

(** ** Exceptions

    The exception classes the bot raises or catches.  [is_Exception] is
    the test made by [except Exception]: [SystemExit] derives from
    [BaseException] only. *)

Inductive exn : Type :=
| BinasciiError
| JSONDecodeError
| UnicodeDecodeError
| ValueError
| TypeError
| OverflowError
| KeyError (key : string)
| AttributeError (attr : string)
| FileNotFoundError
| RequestException
| RuntimeError
| SystemExit (code : Z).

Definition is_Exception (e : exn) : bool :=
  match e with
  | SystemExit _ => false
  | _ => true
  end.

(** [except (base64.binascii.Error, json.JSONDecodeError)] *)
Definition is_decode_error (e : exn) : bool :=
  match e with
  | BinasciiError | JSONDecodeError => true
  | _ => false
  end.

(** ** [base64.b64decode]

    [checkin.py] calls [base64.b64decode(payload)] on a [str] with the
    default [validate=False].  The library first encodes the text as ASCII
    ([ValueError] otherwise) and then runs [binascii.a2b_base64] in its
    lenient mode, which is the loop below: characters outside the alphabet
    are skipped, a pad that completes a quad ends the decoding, and a
    dangling quad is an error. *)

Module Base64.

Definition bytes := list ascii.

(** [table_a2b_base64]: the value of an alphabet character. *)
Definition a2b (c : ascii) : option Z :=
  let n := Z.of_N (N_of_ascii c) in
  if (65 <=? n) && (n <=? 90) then Some (n - 65)
  else if (97 <=? n) && (n <=? 122) then Some (n - 71)
  else if (48 <=? n) && (n <=? 57) then Some (n + 4)
  else if n =? 43 then Some 62
  else if n =? 47 then Some 63
  else None.

Definition byte_of_Z (n : Z) : ascii := ascii_of_N (Z.to_N (Z.land n 255)).

Record dstate : Type := mkD {
  quad_pos : Z;
  leftchar : Z;
  pads : Z;
  out : bytes            (* bytes written so far, last one first *)
}.

Definition d0 : dstate := mkD 0 0 0 [].

(** The [switch (quad_pos)] of the loop: one more sextet [v]. *)
Definition feed (st : dstate) (v : Z) : dstate :=
  if quad_pos st =? 0 then mkD 1 v 0 (out st)
  else if quad_pos st =? 1 then
    mkD 2 (Z.land v 15) 0
        (byte_of_Z (Z.lor (Z.shiftl (leftchar st) 2) (Z.shiftr v 4)) :: out st)
  else if quad_pos st =? 2 then
    mkD 3 (Z.land v 3) 0
        (byte_of_Z (Z.lor (Z.shiftl (leftchar st) 4) (Z.shiftr v 2)) :: out st)
  else
    mkD 0 0 0 (byte_of_Z (Z.lor (Z.shiftl (leftchar st) 6) v) :: out st).

(** One character of the loop; [inl] is the [goto done]. *)
Definition step (st : dstate) (c : ascii) : dstate + dstate :=
  if Ascii.eqb c "="%char then
    if (2 <=? quad_pos st) && (4 <=? quad_pos st + (pads st + 1))
    then inl (mkD (quad_pos st) (leftchar st) (pads st + 1) (out st))
    else if 2 <=? quad_pos st
         then inr (mkD (quad_pos st) (leftchar st) (pads st + 1) (out st))
         else inr st
  else
    match a2b c with
    | None => inr st
    | Some v => inr (feed st v)
    end.

Fixpoint loop (st : dstate) (s : list ascii) : exn + bytes :=
  match s with
  | [] => if quad_pos st =? 0 then inr (rev (out st)) else inl BinasciiError
  | c :: s' =>
      match step st c with
      | inl done => inr (rev (out done))
      | inr st' => loop st' s'
      end
  end.

Definition a2b_base64 (s : list ascii) : exn + bytes := loop d0 s.

Definition is_ascii (c : ascii) : bool := (N_of_ascii c <? 128)%N.

(** [base64.b64decode(s)] for a [str] argument. *)
Definition b64decode (s : string) : exn + bytes :=
  let cs := list_ascii_of_string s in
  if forallb is_ascii cs then a2b_base64 cs else inl ValueError.

(** [base64.b64encode], used to fabricate tokens. *)
Definition b2a (v : Z) : ascii :=
  ascii_of_N (Z.to_N (
    if v <? 26 then v + 65
    else if v <? 52 then v + 71
    else if v <? 62 then v - 4
    else if v =? 62 then 43 else 47)).

Definition zb (c : ascii) : Z := Z.of_N (N_of_ascii c).

Fixpoint b64encode_list (bs : bytes) : list ascii :=
  match bs with
  | [] => []
  | [a] =>
      [b2a (Z.shiftr (zb a) 2); b2a (Z.shiftl (Z.land (zb a) 3) 4);
       "="%char; "="%char]
  | [a; b] =>
      [b2a (Z.shiftr (zb a) 2);
       b2a (Z.lor (Z.shiftl (Z.land (zb a) 3) 4) (Z.shiftr (zb b) 4));
       b2a (Z.shiftl (Z.land (zb b) 15) 2); "="%char]
  | a :: b :: c :: rest =>
      b2a (Z.shiftr (zb a) 2)
      :: b2a (Z.lor (Z.shiftl (Z.land (zb a) 3) 4) (Z.shiftr (zb b) 4))
      :: b2a (Z.lor (Z.shiftl (Z.land (zb b) 15) 2) (Z.shiftr (zb c) 6))
      :: b2a (Z.land (zb c) 63)
      :: b64encode_list rest
  end.

Definition b64encode (bs : bytes) : string :=
  string_of_list_ascii (b64encode_list bs).

End Base64.

(** ** JSON values, as [json.loads] builds them

    A [dict] is the list of its members as they were read, a later member
    of the same key replacing an earlier one on lookup.  A [str] is held
    as its UTF-8 bytes.  A finite [float] is the rational number it
    denotes. *)

#[local] Set Warnings "-register-all".

Inductive json : Type :=
| JNull
| JBool (b : bool)
| JInt (n : Z)
| JFloat (q : Q)
| JNaN
| JInf (negative : bool)
| JStr (s : string)
| JList (items : list json)
| JDict (entries : list (string * json)).

Module PyObj.

(** [d.get(k)] on the entries of a [dict]: the last binding wins, as in
    the decoder. *)
Fixpoint lookup (k : string) (entries : list (string * json)) : option json :=
  match entries with
  | [] => None
  | (k', v) :: rest =>
      match lookup k rest with
      | Some v' => Some v'
      | None => if String.eqb k k' then Some v else None
      end
  end.

(** ['exp' in token_data]: key membership in a [dict], element membership
    in a [list], substring test in a [str]; other values are not
    containers. *)
Definition contains_key (k : string) (v : json) : exn + bool :=
  match v with
  | JDict entries =>
      inr (match lookup k entries with Some _ => true | None => false end)
  | JList items =>
      inr (existsb (fun x => match x with JStr s => String.eqb s k | _ => false end) items)
  | JStr s => inr (PyStr.contains k s)
  | _ => inl TypeError
  end.

(** [token_data['exp']] *)
Definition getitem (v : json) (k : string) : exn + json :=
  match v with
  | JDict entries =>
      match lookup k entries with
      | Some x => inr x
      | None => inl (KeyError k)
      end
  | _ => inl TypeError
  end.

End PyObj.

(** ** [datetime]

    A naive local [datetime] is the number of microseconds since the local
    epoch; a [timedelta] is a number of microseconds.  The zone has a fixed
    offset, so [fromtimestamp] and [now] read on the same axis and the
    offset is left out. *)

Module PyTime.

Definition us_per_second : Z := 1000000.

(** The years 1..9999, in seconds around the epoch. *)
Definition min_timestamp : Z := -62135596800.
Definition max_timestamp : Z := 253402300799.

(** Nearest integer, ties to even: the rounding [fromtimestamp] applies to
    a [float] and the one [format(x, '.1f')] applies to a decimal. *)
Definition round_half_even (q : Q) : Z :=
  let n := Qnum q in
  let d := Z.pos (Qden q) in
  let f := n / d in
  let r := n mod d in
  if 2 * r <? d then f
  else if d <? 2 * r then f + 1
  else if Z.even f then f else f + 1.

Definition in_range (us : Z) : bool :=
  (min_timestamp * us_per_second <=? us) &&
  (us <? (max_timestamp + 1) * us_per_second).

(** [datetime.fromtimestamp(x)] *)
Definition fromtimestamp (x : json) : exn + Z :=
  match x with
  | JInt n =>
      if in_range (n * us_per_second) then inr (n * us_per_second)
      else inl OverflowError
  | JBool b => inr (if b then us_per_second else 0)
  | JFloat q =>
      let us := round_half_even (q * inject_Z us_per_second) in
      if in_range us then inr us else inl OverflowError
  | JNaN => inl ValueError
  | JInf _ => inl OverflowError
  | _ => inl TypeError
  end.

(** [timedelta(minutes=m)] *)
Definition minutes (m : Z) : Z := m * 60 * us_per_second.

(** [remaining.total_seconds() / 3600] *)
Definition hours_of (delta_us : Z) : Q := delta_us # 3600000000.

(** [f"{hours:.1f}"]: the number of tenths printed, then the text. *)
Definition tenths (h : Q) : Z := round_half_even (h * 10).

Definition format_1f (h : Q) : string :=
  let t := tenths h in
  ((if (t <? 0)%Z then "-" else "") ++ PyStr.of_Z (Z.abs t / 10)%Z ++ "."
   ++ PyStr.of_Z (Z.abs t mod 10)%Z)%string.

End PyTime.

(** ** The bot object and its environment *)

(** An entry of [self.accounts], as [load_accounts] builds it. *)
Record Account : Type := mkAccount {
  name : string;
  session_token : string;
  cookies : string;
  description : string
}.

(** A [dict] of HTTP headers; later bindings of a key replace earlier ones. *)
Definition headers := list (string * string).

Fixpoint setitem (k v : string) (h : headers) : headers :=
  match h with
  | [] => [(k, v)]
  | (k', v') :: rest =>
      if String.eqb k k' then (k, v) :: rest else (k', v') :: setitem k v rest
  end.

(** [self.config], the keys the bot reads.  [cfg_headers] is the address
    of the headers [dict] in the store of mutable objects. *)
Record Config : Type := mkConfig {
  cfg_retry_times : option Z;
  cfg_retry_delay : option Z;
  cfg_headers : option nat;
  cfg_api_url : option string
}.

Inductive level : Type := DEBUG | INFO | WARNING | ERROR.

(** What [requests] hands back for one call. *)
Record Response : Type := mkResponse {
  status_code : Z;
  text : string;
  (** [str(response.json())], or [None] when the body is not JSON *)
  json_str : option string
}.

Inductive net_outcome : Type :=
| Responds (r : Response)
| Raises (e : exn).

(** The observable actions of a run, in order. *)
Inductive event : Type :=
| Log (lvl : level) (msg : string)
| Print (msg : string)
| HttpGet (url : string) (hdrs : headers) (proxy : option string) (timeout : Z)
| HttpPost (url : string) (hdrs : headers) (today : Z) (proxy : option string) (timeout : Z)
| Sleep (us : Z).

(** The state a method runs in: the fields of [self], the store of header
    dictionaries, the trace, and the environment: the clock, the network
    (the outcome of each request, by its rank) and the random sources (by
    the rank of the draw). *)
Record World : Type := mkWorld {
  config : Config;
  accounts : list Account;
  proxies : list string;
  has_logger : bool;
  store : list headers;
  trace : list event;
  clock : Z;
  tick : nat;               (* random draws made so far *)
  sent : nat;               (* HTTP requests sent so far *)
  net : nat -> net_outcome; (* what the n-th request meets *)
  rnd : nat -> nat;
  ua_random : nat -> option string
}.

Definition M (A : Type) : Type := World -> (exn + A) * World.

Definition ret {A} (a : A) : M A := fun w => (inr a, w).
Definition raise {A} (e : exn) : M A := fun w => (inl e, w).
Definition bind {A B} (m : M A) (k : A -> M B) : M B :=
  fun w => match m w with
           | (inr a, w') => k a w'
           | (inl e, w') => (inl e, w')
           end.

(** [try: m  except <handles>: h] *)
Definition try_except {A} (m : M A) (handles : exn -> bool) (h : exn -> M A) : M A :=
  fun w => match m w with
           | (inl e, w') => if handles e then h e w' else (inl e, w')
           | r => r
           end.

(** [try: m  except <c1>: h1  except <c2>: h2]; what a handler raises is
    not caught by its sibling. *)
Definition try_except2 {A} (m : M A) (c1 : exn -> bool) (h1 : exn -> M A)
           (c2 : exn -> bool) (h2 : exn -> M A) : M A :=
  fun w => match m w with
           | (inl e, w') =>
               if c1 e then h1 e w' else if c2 e then h2 e w' else (inl e, w')
           | r => r
           end.

Definition lift {A} (r : exn + A) : M A :=
  match r with inl e => raise e | inr a => ret a end.

Declare Scope py_scope.
Delimit Scope py_scope with py.
Notation "x <- m ;; k" := (bind m (fun x => k))
  (at level 61, m at next level, right associativity) : py_scope.
Notation "m ;; k" := (bind m (fun _ => k))
  (at level 61, right associativity) : py_scope.
Local Open Scope py_scope.

Definition get : M World := fun w => (inr w, w).

Definition emit (e : event) : M unit :=
  fun w => (inr tt,
            mkWorld (config w) (accounts w) (proxies w) (has_logger w) (store w)
                    (trace w ++ [e]) (clock w) (tick w) (sent w) (net w) (rnd w) (ua_random w)).

Definition next_tick : M nat :=
  fun w => (inr (tick w),
            mkWorld (config w) (accounts w) (proxies w) (has_logger w) (store w)
                    (trace w) (clock w) (S (tick w)) (sent w) (net w) (rnd w) (ua_random w)).

Definition next_sent : M nat :=
  fun w => (inr (sent w),
            mkWorld (config w) (accounts w) (proxies w) (has_logger w) (store w)
                    (trace w) (clock w) (tick w) (S (sent w)) (net w) (rnd w) (ua_random w)).

Definition advance (us : Z) : M unit :=
  fun w => (inr tt,
            mkWorld (config w) (accounts w) (proxies w) (has_logger w) (store w)
                    (trace w) (clock w + us) (tick w) (sent w) (net w) (rnd w) (ua_random w)).

Definition set_store (s : list headers) : M unit :=
  fun w => (inr tt,
            mkWorld (config w) (accounts w) (proxies w) (has_logger w) s
                    (trace w) (clock w) (tick w) (sent w) (net w) (rnd w) (ua_random w)).

(** [self.logger.<lvl>(msg)]: an [AttributeError] until [setup_logging]
    has given [self] its [logger]. *)
Definition log (lvl : level) (msg : string) : M unit :=
  w <- get ;;
  if has_logger w then emit (Log lvl msg) else raise (AttributeError "logger").

(** [time.sleep(seconds)] *)
Definition sleep (us : Z) : M unit := emit (Sleep us) ;; advance us.

(** [datetime.now()] *)
Definition now : M Z := w <- get ;; ret (clock w).

(** [random.choice(xs)] on a non-empty list. *)
Definition choice {A} (d : A) (xs : list A) : M A :=
  t <- next_tick ;; w <- get ;;
  ret (nth (Nat.modulo (rnd w t) (List.length xs)) xs d).

(** [h.copy()]: a fresh dictionary with the same entries. *)
Definition dict_copy (addr : nat) : M nat :=
  w <- get ;;
  set_store (store w ++ [nth addr (store w) []]) ;;
  ret (List.length (store w)).

Fixpoint update_nth {A} (n : nat) (f : A -> A) (l : list A) : list A :=
  match l, n with
  | [], _ => []
  | x :: l', O => f x :: l'
  | x :: l', S n' => x :: update_nth n' f l'
  end.

(** [h[k] = v] *)
Definition dict_set (addr : nat) (k v : string) : M unit :=
  w <- get ;; set_store (update_nth addr (setitem k v) (store w)).

Definition dict_read (addr : nat) : M headers :=
  w <- get ;; ret (nth addr (store w) []).

(** [str(e)] inside a log message: the class of the exception stands for
    the library's wording. *)
Definition exn_text (e : exn) : string :=
  match e with
  | BinasciiError => "binascii.Error"
  | JSONDecodeError => "JSONDecodeError"
  | UnicodeDecodeError => "UnicodeDecodeError"
  | ValueError => "ValueError"
  | TypeError => "TypeError"
  | OverflowError => "OverflowError"
  | KeyError k => "'" ++ k ++ "'"
  | AttributeError a => "'PiggyCellBot' object has no attribute '" ++ a ++ "'"
  | FileNotFoundError => "FileNotFoundError"
  | RequestException => "RequestException"
  | RuntimeError => "RuntimeError"
  | SystemExit c => PyStr.of_Z c
  end.

(** Python truthiness of what a method returns: [None] is falsy. *)
Definition truthy (r : option bool) : bool :=
  match r with Some b => b | None => false end.

(** [self.config['headers']] and [self.config['api_url']] *)
Definition config_headers : M nat :=
  w <- get ;;
  match cfg_headers (config w) with
  | Some a => ret a
  | None => raise (KeyError "headers")
  end.

Definition config_api_url : M string :=
  w <- get ;;
  match cfg_api_url (config w) with
  | Some u => ret u
  | None => raise (KeyError "api_url")
  end.

(** [get_random_proxy] *)
Definition get_random_proxy : M (option string) :=
  w <- get ;;
  match proxies w with
  | [] => ret None
  | ps => proxy_url <- choice "" ps ;; ret (Some proxy_url)
  end.

Definition fallback_user_agents : list string :=
  [ "Mozilla/5.0 (Macintosh; Intel Mac OS X 10_15_7) AppleWebKit/537.36 (KHTML, like Gecko) Chrome/141.0.0.0 Safari/537.36";
    "Mozilla/5.0 (Windows NT 10.0; Win64; x64) AppleWebKit/537.36 (KHTML, like Gecko) Chrome/141.0.0.0 Safari/537.36";
    "Mozilla/5.0 (Macintosh; Intel Mac OS X 10_15_7) AppleWebKit/605.1.15 (KHTML, like Gecko) Version/17.1 Safari/605.1.15";
    "Mozilla/5.0 (Windows NT 10.0; Win64; x64; rv:121.0) Gecko/20100101 Firefox/121.0";
    "Mozilla/5.0 (Macintosh; Intel Mac OS X 10.15; rv:121.0) Gecko/20100101 Firefox/121.0" ].

(** [get_random_user_agent] *)
Definition get_random_user_agent : M string :=
  t <- next_tick ;; w <- get ;;
  match ua_random w t with
  | Some ua => ret ua
  | None => choice "" fallback_user_agents
  end.

(** The cookie header both requests send. *)
Definition cookie_of (account : Account) : string :=
  let cookie := "__Secure-authjs.session-token=" ++ session_token account in
  if String.eqb (cookies account) "" then cookie
  else cookie ++ "; " ++ cookies account.

(** [session.get] and [session.post]: the request is observed, then the
    environment answers or raises. *)
Definition answer : M Response :=
  t <- next_sent ;; w <- get ;;
  match net w t with
  | Responds r => ret r
  | Raises e => raise e
  end.

Definition session_get (url : string) (h : nat) (proxy : option string) (timeout : Z)
  : M Response :=
  hdrs <- dict_read h ;; emit (HttpGet url hdrs proxy timeout) ;; answer.

Definition session_post (url : string) (h : nat) (today : Z) (proxy : option string)
           (timeout : Z) : M Response :=
  hdrs <- dict_read h ;; emit (HttpPost url hdrs today proxy timeout) ;; answer.

(** The body of the [try] of [test_token_with_api]. *)
Definition test_token_body (account : Account) : M (option bool) :=
  h0 <- config_headers ;;
  h <- dict_copy h0 ;;
  ua <- get_random_user_agent ;;
  dict_set h "user-agent" ua ;;
  dict_set h "cookie" (cookie_of account) ;;
  proxy <- get_random_proxy ;;
  response <- session_get "https://app.piggycell.io/api/trpc/user.me?batch=1"
                          h proxy 10 ;;
  if status_code response =? 200 then
    log INFO ("Account " ++ name account ++ " token valid (API test)") ;;
    ret (Some true)
  else
    log WARNING ("Account " ++ name account ++ " token possibly invalid (status "
                 ++ PyStr.of_Z (status_code response) ++ ")") ;;
    ret (Some false).

(** [test_token_with_api] *)
Definition test_token_with_api (account : Account) : M (option bool) :=
  try_except
    (test_token_body account)
    is_Exception
    (fun e =>
       log WARNING ("API test failed for " ++ name account ++ ": " ++ exn_text e
                    ++ ", assuming valid") ;;
       ret (Some true)).

(** The placeholder test of [check_token_validity]. *)
Definition is_placeholder (session_token : string) : bool :=
  String.eqb session_token ""
  || PyStr.startswith session_token "your"
  || PyStr.contains "session_token" (PyStr.lower session_token).

(** [payload += '=' * (4 - len(payload) % 4)] *)
Definition pad (payload : string) : string :=
  payload ++ PyStr.repeat "=" (4 - PyStr.len payload mod 4).

Section Validator.

(** [json.loads] on the decoded bytes: the library's decoder. *)
Variable loads : Base64.bytes -> exn + json.

(** The body of the inner [try] of [check_token_validity]. *)
Definition inspect_payload (account : Account) (payload : string) : M (option bool) :=
  decoded <- lift (Base64.b64decode payload) ;;
  token_data <- lift (loads decoded) ;;
  has_exp <- lift (PyObj.contains_key "exp" token_data) ;;
  if has_exp then
    exp_timestamp <- lift (PyObj.getitem token_data "exp") ;;
    exp_datetime <- lift (PyTime.fromtimestamp exp_timestamp) ;;
    current_time <- now ;;
    if exp_datetime <=? current_time + PyTime.minutes 30 then
      log WARNING ("Account " ++ name account ++ " token will expire within 30 minutes") ;;
      ret (Some false)
    else
      let remaining := exp_datetime - current_time in
      let hours := PyTime.hours_of remaining in
      log INFO ("Account " ++ name account ++ " token valid, remaining: "
                ++ PyTime.format_1f hours ++ " hours") ;;
      ret (Some true)
  else
    log INFO ("Account " ++ name account ++ " token valid but no expiry info") ;;
    ret (Some true).

(** The body of the outer [try] of [check_token_validity].  The result is
    [None] where the source falls off the end of the function. *)
Definition check_token_body (account : Account) : M (option bool) :=
  let session_token := session_token account in
  if is_placeholder session_token then
    log WARNING ("Account " ++ name account
                 ++ ": token is placeholder, please update real session_token") ;;
    ret (Some false)
  else if PyStr.contains "." session_token && (2 <=? PyStr.count "." session_token) then
    let parts := PyStr.split "." session_token in
    if 2 <=? Z.of_nat (List.length parts) then
      let payload := pad (nth 1 parts "") in
      try_except (inspect_payload account payload)
                 is_decode_error
                 (fun _ => test_token_with_api account)
    else ret None
  else test_token_with_api account.

(** [check_token_validity] *)
Definition check_token_validity (account : Account) : M (option bool) :=
  try_except
    (check_token_body account)
    is_Exception
    (fun e =>
       log ERROR ("Error checking token of " ++ name account ++ ": " ++ exn_text e) ;;
       ret (Some true)).

Definition already_checked_phrases : list string :=
  [ "Already checked in today"; "already checked in today";
    "Already checked in"; "already checked in" ].

(** The [for phrase in already_checked_phrases] loop, which stops at the
    first phrase found; the result is [already_checked]. *)
Fixpoint scan_phrases (phrases : list string) (response_text : string) : M bool :=
  match phrases with
  | [] => ret false
  | phrase :: rest =>
      if PyStr.contains phrase response_text then
        log DEBUG ("Detected already checked-in phrase: " ++ phrase) ;;
        ret true
      else scan_phrases rest response_text
  end.

(** [response.json()] *)
Definition response_json (response : Response) : M string :=
  match json_str response with
  | Some s => ret s
  | None => raise JSONDecodeError
  end.

Definition account_desc_of (account : Account) : string :=
  if String.eqb (description account) "" then ""
  else " (" ++ description account ++ ")".

(** The [status_code == 200] branch of [sign_in]. *)
Definition on_status_200 (account : Account) (response : Response) : M bool :=
  let account_desc := account_desc_of account in
  try_except
    (response_text <- response_json response ;;
     log DEBUG ("Response text: " ++ response_text) ;;
     already_checked <- scan_phrases already_checked_phrases response_text ;;
     (if already_checked : bool then
        log INFO ("Account " ++ name account ++ account_desc
                  ++ " already manually checked in today")
      else
        log INFO ("Account " ++ name account ++ account_desc ++ " check-in successful")) ;;
     log INFO ("Response content: " ++ response_text))
    (fun e => match e with JSONDecodeError => true | _ => false end)
    (fun _ =>
       log INFO ("Account " ++ name account ++ account_desc ++ " check-in successful") ;;
       log INFO ("Response content: " ++ text response)) ;;
  ret true.

(** [datetime.now().strftime('%Y-%m-%d')], as a day number. *)
Definition today_of (clock_us : Z) : Z := clock_us / (86400 * PyTime.us_per_second).

(** What one attempt of [sign_in] sends. *)
Record request : Type := mkRequest {
  req_url : string;
  req_headers : nat;
  req_today : Z;
  req_proxy : option string
}.

(** The [try] body of one attempt of [sign_in], up to the call of
    [session.post]: headers, date, proxy, and the opening log line of the
    first attempt. *)
Definition build_request (account : Account) (attempt : Z) : M request :=
  h0 <- config_headers ;;
  h <- dict_copy h0 ;;
  user_agent <- get_random_user_agent ;;
  dict_set h "user-agent" user_agent ;;
  dict_set h "cookie" (cookie_of account) ;;
  current_time <- now ;;
  let today := today_of current_time in
  proxy <- get_random_proxy ;;
  let account_desc := account_desc_of account in
  (if attempt =? 0 then
     let proxy_info :=
       match proxy with
       | Some proxy_url => "proxy: " ++ proxy_url
       | None => "no proxy"
       end in
     log INFO ("Account " ++ name account ++ account_desc ++ " starting check-in, "
               ++ "User-Agent: " ++ PyStr.take 50 user_agent ++ "..., " ++ proxy_info)
   else ret tt) ;;
  api_url <- config_api_url ;;
  ret (mkRequest api_url h today proxy).

(** The [if response.status_code == 200 ... else ...] of [sign_in]. *)
Definition classify (account : Account) (response : Response) : M bool :=
  if status_code response =? 200 then on_status_200 account response
  else
    log ERROR ("Account " ++ name account ++ account_desc_of account
               ++ " check-in failed, status: " ++ PyStr.of_Z (status_code response)) ;;
    log ERROR ("Response: " ++ text response) ;;
    ret false.

(** The [try] body of one attempt of [sign_in]. *)
Definition attempt_body (account : Account) (attempt : Z) : M bool :=
  req <- build_request account attempt ;;
  response <- session_post (req_url req) (req_headers req) (req_today req)
                           (req_proxy req) 30 ;;
  classify account response.

(** What one pass through the [for attempt] loop decides. *)
Inductive flow : Type :=
| Return (b : bool)
| Continue.

(** One iteration: the [try] with its two handlers. *)
Definition attempt_once (account : Account) (retry_times retry_delay attempt : Z) : M flow :=
  try_except2
    (b <- attempt_body account attempt ;; ret (Return b))
    (fun e => match e with RequestException => true | _ => false end)
    (fun e =>
       if attempt <? retry_times - 1 then
         log WARNING ("Account " ++ name account ++ " attempt "
                      ++ PyStr.of_Z (attempt + 1) ++ " failed: " ++ exn_text e
                      ++ ", retrying in " ++ PyStr.of_Z retry_delay ++ "s...") ;;
         sleep (retry_delay * PyTime.us_per_second) ;;
         ret Continue
       else
         log ERROR ("Account " ++ name account ++ " request failed after "
                    ++ PyStr.of_Z retry_times ++ " retries: " ++ exn_text e) ;;
         ret (Return false))
    is_Exception
    (fun e =>
       log ERROR ("Unknown error during check-in for " ++ name account ++ ": "
                  ++ exn_text e) ;;
       ret (Return false)).

(** [for attempt in range(retry_times)], from [attempt] on, with
    [remaining] iterations left; falling out of the loop returns [False]. *)
Fixpoint attempts (account : Account) (retry_times retry_delay : Z)
         (remaining : nat) (attempt : Z) : M bool :=
  match remaining with
  | O => ret false
  | S remaining' =>
      r <- attempt_once account retry_times retry_delay attempt ;;
      match r with
      | Return b => ret b
      | Continue => attempts account retry_times retry_delay remaining' (attempt + 1)
      end
  end.

(** [self.config.get(key, default)] *)
Definition config_get (field : Config -> option Z) (default : Z) : M Z :=
  w <- get ;;
  ret (match field (config w) with Some v => v | None => default end).

(** [sign_in] *)
Definition sign_in (account : Account) : M bool :=
  valid <- check_token_validity account ;;
  if negb (truthy valid) then
    log ERROR ("Account " ++ name account ++ " token invalid or expiring soon, skipping") ;;
    ret false
  else
    retry_times <- config_get cfg_retry_times 3 ;;
    retry_delay <- config_get cfg_retry_delay 5 ;;
    attempts account retry_times retry_delay (Z.to_nat retry_times) 0.

(** [random.uniform(2, 5)], in microseconds. *)
Definition uniform_2_5 : M Z :=
  t <- next_tick ;; w <- get ;;
  ret (2000000 + Z.of_nat (rnd w t) mod 3000001).

(** The [for account in self.accounts] loop, carrying [success_count]. *)
Fixpoint sign_in_each (todo : list Account) (success_count : Z) : M Z :=
  match todo with
  | [] => ret success_count
  | account :: rest =>
      ok <- sign_in account ;;
      pause <- uniform_2_5 ;;
      sleep pause ;;
      sign_in_each rest (if ok then success_count + 1 else success_count)
  end.

(** [sign_in_all_accounts] *)
Definition sign_in_all_accounts : M unit :=
  w <- get ;;
  match accounts w with
  | [] => log WARNING "No accounts found"
  | _ =>
      log INFO ("Starting check-in for " ++ PyStr.of_Z (Z.of_nat (List.length (accounts w)))
                ++ " accounts") ;;
      success_count <- sign_in_each (accounts w) 0 ;;
      w' <- get ;;
      log INFO ("Check-in complete, success: " ++ PyStr.of_Z success_count ++ "/"
                ++ PyStr.of_Z (Z.of_nat (List.length (accounts w'))))
  end.

(** [run_once] *)
Definition run_once : M unit := sign_in_all_accounts.

End Validator.

(** ** Construction of the bot: [__init__] and the loaders

    The three files the constructor reads, as the loaders see them: absent,
    not parseable, or parsed.  An account entry of the accounts file may
    lack any key; the proxy file is a sequence of lines. *)

Inductive file (A : Type) : Type :=
| Missing
| Malformed
| Content (a : A).
Arguments Missing {A}.
Arguments Malformed {A}.
Arguments Content {A} a.

Record raw_config : Type := mkRawConfig {
  raw_retry_times : option Z;
  raw_retry_delay : option Z;
  raw_headers : option headers;
  raw_api_url : option string
}.

Record raw_account : Type := mkRawAccount {
  raw_name : option string;
  raw_session_token : option string;
  raw_cookies : option string;
  raw_description : option string;
  raw_enabled : option bool
}.

Record Files : Type := mkFiles {
  config_json : file raw_config;
  accounts_json : file (list raw_account);
  proxy_txt : file (list string)
}.

Definition set_config (c : Config) : M unit :=
  fun w => (inr tt,
            mkWorld c (accounts w) (proxies w) (has_logger w) (store w)
                    (trace w) (clock w) (tick w) (sent w) (net w) (rnd w) (ua_random w)).

Definition set_accounts (a : list Account) : M unit :=
  fun w => (inr tt,
            mkWorld (config w) a (proxies w) (has_logger w) (store w)
                    (trace w) (clock w) (tick w) (sent w) (net w) (rnd w) (ua_random w)).

Definition set_proxies (p : list string) : M unit :=
  fun w => (inr tt,
            mkWorld (config w) (accounts w) p (has_logger w) (store w)
                    (trace w) (clock w) (tick w) (sent w) (net w) (rnd w) (ua_random w)).

Definition set_logger : M unit :=
  fun w => (inr tt,
            mkWorld (config w) (accounts w) (proxies w) true (store w)
                    (trace w) (clock w) (tick w) (sent w) (net w) (rnd w) (ua_random w)).

(** [open(path)] followed by the parse, which raises [bad] on a file it
    cannot read. *)
Definition read_file {A} (bad : exn) (f : file A) : M A :=
  match f with
  | Missing => raise FileNotFoundError
  | Malformed => raise bad
  | Content a => ret a
  end.

(** [sys.exit(1)] *)
Definition sys_exit {A} (code : Z) : M A := raise (SystemExit code).

(** [load_config]; the parsed headers become a dictionary of the store. *)
Definition load_config (fs : Files) : M Config :=
  try_except2
    (raw <- read_file JSONDecodeError (config_json fs) ;;
     w <- get ;;
     match raw_headers raw with
     | Some h =>
         set_store (store w ++ [h]) ;;
         ret (mkConfig (raw_retry_times raw) (raw_retry_delay raw)
                       (Some (List.length (store w))) (raw_api_url raw))
     | None =>
         ret (mkConfig (raw_retry_times raw) (raw_retry_delay raw) None (raw_api_url raw))
     end)
    (fun e => match e with FileNotFoundError => true | _ => false end)
    (fun _ => log ERROR "Config file does not exist: config/config.json" ;; sys_exit 1)
    (fun e => match e with JSONDecodeError => true | _ => false end)
    (fun e => log ERROR ("Config file format error: " ++ exn_text e) ;; sys_exit 1).

(** [account['name']] and the like on an entry of the accounts file. *)
Definition require (k : string) (v : option string) : M string :=
  match v with
  | Some s => ret s
  | None => raise (KeyError k)
  end.

Definition or_default {A} (v : option A) (d : A) : A :=
  match v with Some a => a | None => d end.

(** The [for account in accounts_data.get('accounts', [])] loop. *)
Fixpoint collect_accounts (entries : list raw_account) : M (list Account) :=
  match entries with
  | [] => ret []
  | account :: rest =>
      if or_default (raw_enabled account) true then
        n <- require "name" (raw_name account) ;;
        t <- require "session_token" (raw_session_token account) ;;
        more <- collect_accounts rest ;;
        ret (mkAccount n t (or_default (raw_cookies account) "")
                       (or_default (raw_description account) "") :: more)
      else collect_accounts rest
  end.

(** [load_accounts] *)
Definition load_accounts (fs : Files) : M (list Account) :=
  try_except2
    (accounts_data <- read_file JSONDecodeError (accounts_json fs) ;;
     collect_accounts accounts_data)
    (fun e => match e with FileNotFoundError => true | _ => false end)
    (fun _ =>
       emit (Print "Error: Account config file does not exist, please create config/checkin-acc.json") ;;
       ret [])
    (fun e => match e with JSONDecodeError | KeyError _ => true | _ => false end)
    (fun e =>
       emit (Print ("Warning: JSON account config file format error: " ++ exn_text e)) ;;
       ret []).

(** The [for line in f] loop of [load_proxies]. *)
Fixpoint collect_proxies (lines : list string) : list string :=
  match lines with
  | [] => []
  | line :: rest =>
      let line := PyStr.strip line in
      if negb (String.eqb line "") && negb (PyStr.startswith line "#")
      then line :: collect_proxies rest
      else collect_proxies rest
  end.

(** [load_proxies]; a file that is not UTF-8 text makes the read raise. *)
Definition load_proxies (fs : Files) : M (list string) :=
  try_except
    (lines <- read_file UnicodeDecodeError (proxy_txt fs) ;;
     ret (collect_proxies lines))
    (fun e => match e with FileNotFoundError => true | _ => false end)
    (fun _ => emit (Print "Warning: proxy.txt file does not exist") ;; ret []).

(** [setup_logging]: from here on [self.logger] exists. *)
Definition setup_logging : M unit := set_logger.

(** [PiggyCellBot.__init__] *)
Definition init (fs : Files) : M unit :=
  c <- load_config fs ;;
  set_config c ;;
  a <- load_accounts fs ;; set_accounts a ;;
  p <- load_proxies fs ;; set_proxies p ;;
  setup_logging.

(** The interpreter state before the constructor runs. *)
Definition blank (clock0 : Z) (net0 : nat -> net_outcome) (rnd0 : nat -> nat)
           (ua0 : nat -> option string) : World :=
  mkWorld (mkConfig None None None None) [] [] false [] [] clock0 O O net0 rnd0 ua0.

(** [main] with [--once]: construct the bot, then one pass. *)
Definition main_once (loads : Base64.bytes -> exn + json) (fs : Files) : M unit :=
  init fs ;; run_once loads.

(** ** A decoder for [json.loads]

    The validator takes the library's decoder as a parameter.  [Json.loads]
    is the instance used to run it: the grammar [json.loads] accepts on a
    [bytes] document that it reads as UTF-8 (with or without signature).
    A document it would read as UTF-16 or UTF-32 is outside this instance,
    and so are the interpreter's recursion limit and its limit on the
    length of integer literals. *)

Module Json.

Definition code (c : ascii) : Z := Z.of_N (N_of_ascii c).
Definition chr (n : Z) : ascii := ascii_of_N (Z.to_N n).

Definition is_cont (c : ascii) : bool := (128 <=? code c) && (code c <=? 191).

(** The UTF-8 decoder with [surrogatepass]: is the document well formed? *)
Fixpoint utf8_ok (fuel : nat) (s : list ascii) : bool :=
  match fuel with
  | O => false
  | S fuel' =>
      match s with
      | [] => true
      | a :: r =>
          let n := code a in
          if n <? 128 then utf8_ok fuel' r
          else if (194 <=? n) && (n <=? 223) then
            match r with
            | b :: r' => is_cont b && utf8_ok fuel' r'
            | _ => false
            end
          else if (224 <=? n) && (n <=? 239) then
            match r with
            | b :: c :: r' =>
                is_cont b && is_cont c
                && (negb (n =? 224) || (160 <=? code b)) && utf8_ok fuel' r'
            | _ => false
            end
          else if (240 <=? n) && (n <=? 244) then
            match r with
            | b :: c :: d :: r' =>
                is_cont b && is_cont c && is_cont d
                && (negb (n =? 240) || (144 <=? code b))
                && (negb (n =? 244) || (code b <=? 143)) && utf8_ok fuel' r'
            | _ => false
            end
          else false
      end
  end.

(** [json.detect_encoding] *)
Inductive encoding : Type := UTF8 | UTF8_SIG | UTF16_OR_32.

Definition detect_encoding (b : list ascii) : encoding :=
  match map code b with
  | 255 :: 254 :: _ | 254 :: 255 :: _ => UTF16_OR_32
  | 0 :: 0 :: 254 :: 255 :: _ => UTF16_OR_32
  | 239 :: 187 :: 191 :: _ => UTF8_SIG
  | b0 :: b1 :: _ :: _ :: _ =>
      if (b0 =? 0) || (b1 =? 0) then UTF16_OR_32 else UTF8
  | [b0; b1] => if (b0 =? 0) || (b1 =? 0) then UTF16_OR_32 else UTF8
  | _ => UTF8
  end.

Definition is_ws (c : ascii) : bool :=
  let n := code c in (n =? 32) || (n =? 9) || (n =? 10) || (n =? 13).

Fixpoint skip_ws (s : list ascii) : list ascii :=
  match s with
  | c :: r => if is_ws c then skip_ws r else s
  | [] => []
  end.

Definition is_digit (c : ascii) : bool := (48 <=? code c) && (code c <=? 57).

(** The longest run of digits at the head of [s], and what follows. *)
Fixpoint span_digits (s : list ascii) : list ascii * list ascii :=
  match s with
  | c :: r =>
      if is_digit c then let '(ds, rest) := span_digits r in (c :: ds, rest)
      else ([], s)
  | [] => ([], [])
  end.

Definition nat_of_digits (ds : list ascii) : Z :=
  fold_left (fun acc c => acc * 10 + (code c - 48)) ds 0.

(** Does [s] start with the characters of [w]? Returns the remainder. *)
Fixpoint expect (w s : list ascii) : option (list ascii) :=
  match w, s with
  | [], _ => Some s
  | a :: w', b :: s' => if Ascii.eqb a b then expect w' s' else None
  | _ :: _, [] => None
  end.

Definition hex_value (c : ascii) : option Z :=
  let n := code c in
  if (48 <=? n) && (n <=? 57) then Some (n - 48)
  else if (65 <=? n) && (n <=? 70) then Some (n - 55)
  else if (97 <=? n) && (n <=? 102) then Some (n - 87)
  else None.

Definition hex4 (s : list ascii) : option (Z * list ascii) :=
  match s with
  | a :: b :: c :: d :: r =>
      match hex_value a, hex_value b, hex_value c, hex_value d with
      | Some x, Some y, Some z, Some t => Some (((x * 16 + y) * 16 + z) * 16 + t, r)
      | _, _, _, _ => None
      end
  | _ => None
  end.

(** The UTF-8 bytes of a code point (surrogates included). *)
Definition utf8_encode (n : Z) : list ascii :=
  if n <? 128 then [chr n]
  else if n <? 2048 then [chr (192 + n / 64); chr (128 + n mod 64)]
  else if n <? 65536 then
    [chr (224 + n / 4096); chr (128 + (n / 64) mod 64); chr (128 + n mod 64)]
  else [chr (240 + n / 262144); chr (128 + (n / 4096) mod 64);
        chr (128 + (n / 64) mod 64); chr (128 + n mod 64)].

(** [scanstring] in strict mode, after the opening quote: the bytes of the
    string and what follows the closing quote. *)
Fixpoint scanstring (fuel : nat) (s acc : list ascii) : exn + (string * list ascii) :=
  match fuel with
  | O => inl JSONDecodeError
  | S fuel' =>
      match s with
      | [] => inl JSONDecodeError
      | c :: r =>
          if code c =? 34 then inr (string_of_list_ascii (rev acc), r)
          else if code c =? 92 then
            match r with
            | [] => inl JSONDecodeError
            | e :: r' =>
                let simple (n : Z) := scanstring fuel' r' (chr n :: acc) in
                let k := code e in
                if k =? 34 then simple 34
                else if k =? 92 then simple 92
                else if k =? 47 then simple 47
                else if k =? 98 then simple 8
                else if k =? 102 then simple 12
                else if k =? 110 then simple 10
                else if k =? 114 then simple 13
                else if k =? 116 then simple 9
                else if k =? 117 then
                  match hex4 r' with
                  | None => inl JSONDecodeError
                  | Some (uni, r2) =>
                      let single := scanstring fuel' r2 (rev (utf8_encode uni) ++ acc) in
                      if (55296 <=? uni) && (uni <=? 56319) then
                        match r2 with
                        | b :: u :: r3 =>
                            if (code b =? 92) && (code u =? 117) then
                              match hex4 r3 with
                              | None => inl JSONDecodeError
                              | Some (uni2, r4) =>
                                  if (56320 <=? uni2) && (uni2 <=? 57343) then
                                    scanstring fuel' r4
                                      (rev (utf8_encode
                                              (65536 + (uni - 55296) * 1024 + (uni2 - 56320)))
                                       ++ acc)
                                  else single
                              end
                            else single
                        | _ => single
                        end
                      else single
                  end
                else inl JSONDecodeError
            end
          else if code c <? 32 then inl JSONDecodeError
          else scanstring fuel' r (c :: acc)
      end
  end.

(** The value of the literal [int frac e±exp] as a [float]: infinite once
    it rounds beyond the largest double. *)
Definition float_of (negative : bool) (mantissa exponent : Z) : json :=
  let q := if 0 <=? exponent then inject_Z (mantissa * 10 ^ exponent)
           else Qmake mantissa (Z.to_pos (10 ^ (- exponent))) in
  if Qle_bool (inject_Z (2 ^ 1024 - 2 ^ 970)) q then JInf negative
  else JFloat (if negative then Qopp q else q).

(** [_match_number]: an integer part, then an optional fraction and an
    optional exponent, each taken only if complete. *)
Definition match_number (s : list ascii) : option (json * list ascii) :=
  let '(negative, s1) :=
    match s with
    | c :: r => if code c =? 45 then (true, r) else (false, s)
    | [] => (false, s)
    end in
  let int_part :=
    match s1 with
    | c :: r =>
        if code c =? 48 then Some ([c], r)
        else if is_digit c then Some (span_digits s1)
        else None
    | [] => None
    end in
  match int_part with
  | None => None
  | Some (ds, s2) =>
      let '(frac, s3) :=
        match s2 with
        | dot :: r =>
            if code dot =? 46 then
              match span_digits r with
              | ([], _) => ([], s2)
              | (fs, r') => (fs, r')
              end
            else ([], s2)
        | [] => ([], s2)
        end in
      let '(ex, s4) :=
        match s3 with
        | e :: r =>
            if (code e =? 101) || (code e =? 69) then
              let '(esign, r1) :=
                match r with
                | sg :: r' =>
                    if code sg =? 45 then (-1, r')
                    else if code sg =? 43 then (1, r') else (1, r)
                | [] => (1, r)
                end in
              match span_digits r1 with
              | ([], _) => (None, s3)
              | (es, r2) => (Some (esign * nat_of_digits es), r2)
              end
            else (None, s3)
        | [] => (None, s3)
        end in
      match frac, ex with
      | [], None =>
          let n := nat_of_digits ds in
          Some (JInt (if negative then - n else n), s4)
      | _, _ =>
          Some (float_of negative (nat_of_digits (ds ++ frac))
                         (match ex with Some x => x | None => 0 end
                          - Z.of_nat (List.length frac)), s4)
      end
  end.

Definition word (w : string) (v : json) (s : list ascii) : exn + (json * list ascii) :=
  match expect (list_ascii_of_string w) s with
  | Some r => inr (v, r)
  | None => inl JSONDecodeError
  end.

Definition number (s : list ascii) : exn + (json * list ascii) :=
  match match_number s with
  | Some r => inr r
  | None => inl JSONDecodeError
  end.

(** [scan_once] with the object and array loops.  Every call consumes
    input, so a fuel of the length of the document is never used up. *)
Fixpoint value (fuel : nat) (s : list ascii) {struct fuel} : exn + (json * list ascii) :=
  match fuel with
  | O => inl JSONDecodeError
  | S fuel' =>
      match s with
      | [] => inl JSONDecodeError
      | c :: r =>
          let k := code c in
          if k =? 34 then
            match scanstring (S (List.length r)) r [] with
            | inl e => inl e
            | inr (str, r') => inr (JStr str, r')
            end
          else if k =? 123 then
            match skip_ws r with
            | c1 :: r1 =>
                if code c1 =? 125 then inr (JDict [], r1)
                else members fuel' (c1 :: r1) []
            | [] => inl JSONDecodeError
            end
          else if k =? 91 then
            match skip_ws r with
            | c1 :: r1 =>
                if code c1 =? 93 then inr (JList [], r1)
                else elements fuel' (c1 :: r1) []
            | [] => inl JSONDecodeError
            end
          else if k =? 110 then word "null" JNull s
          else if k =? 116 then word "true" (JBool true) s
          else if k =? 102 then word "false" (JBool false) s
          else if k =? 78 then word "NaN" JNaN s
          else if k =? 73 then word "Infinity" (JInf false) s
          else if k =? 45 then
            match expect (list_ascii_of_string "Infinity") r with
            | Some r' => inr (JInf true, r')
            | None => number s
            end
          else number s
      end
  end

with members (fuel : nat) (s : list ascii) (acc : list (string * json)) {struct fuel}
  : exn + (json * list ascii) :=
  match fuel with
  | O => inl JSONDecodeError
  | S fuel' =>
      match s with
      | q :: r =>
          if code q =? 34 then
            match scanstring (S (List.length r)) r [] with
            | inl e => inl e
            | inr (key, r1) =>
                match skip_ws r1 with
                | colon :: r2 =>
                    if code colon =? 58 then
                      match value fuel' (skip_ws r2) with
                      | inl e => inl e
                      | inr (v, r3) =>
                          match skip_ws r3 with
                          | d :: r4 =>
                              if code d =? 125 then inr (JDict (rev ((key, v) :: acc)), r4)
                              else if code d =? 44
                                   then members fuel' (skip_ws r4) ((key, v) :: acc)
                              else inl JSONDecodeError
                          | [] => inl JSONDecodeError
                          end
                      end
                    else inl JSONDecodeError
                | [] => inl JSONDecodeError
                end
            end
          else inl JSONDecodeError
      | [] => inl JSONDecodeError
      end
  end

with elements (fuel : nat) (s : list ascii) (acc : list json) {struct fuel}
  : exn + (json * list ascii) :=
  match fuel with
  | O => inl JSONDecodeError
  | S fuel' =>
      match value fuel' s with
      | inl e => inl e
      | inr (v, r) =>
          match skip_ws r with
          | d :: r1 =>
              if code d =? 93 then inr (JList (rev (v :: acc)), r1)
              else if code d =? 44 then elements fuel' (skip_ws r1) (v :: acc)
              else inl JSONDecodeError
          | [] => inl JSONDecodeError
          end
      end
  end.

(** [json.loads(b)] for [bytes]: decode, skip blanks, read one value, and
    accept only blanks after it. *)
Definition loads (b : Base64.bytes) : exn + json :=
  match detect_encoding b with
  | UTF16_OR_32 => inl UnicodeDecodeError
  | enc =>
      let doc := match enc with UTF8_SIG => skipn 3 b | _ => b end in
      if utf8_ok (S (List.length doc)) doc then
        match value (2 * S (List.length doc)) (skip_ws doc) with
        | inl e => inl e
        | inr (v, rest) =>
            match skip_ws rest with
            | [] => inr v
            | _ :: _ => inl JSONDecodeError
            end
        end
      else inl UnicodeDecodeError
  end.

End Json.

(** ** Observations on runs *)

Definition is_network (e : event) : bool :=
  match e with
  | HttpGet _ _ _ _ | HttpPost _ _ _ _ _ => true
  | _ => false
  end.

Definition is_post (e : event) : bool :=
  match e with HttpPost _ _ _ _ _ => true | _ => false end.

Definition is_sleep (e : event) : bool :=
  match e with Sleep _ => true | _ => false end.

(** The HTTP calls of a trace, in order. *)
Definition network_calls (t : list event) : list event := filter is_network t.

Definition is_log (e : event) : bool :=
  match e with Log _ _ => true | _ => false end.

(** The world once the request [ev] has left. *)
Definition posted (w : World) (ev : event) : World :=
  mkWorld (config w) (accounts w) (proxies w) (has_logger w) (store w)
          (trace w ++ [ev]) (clock w) (tick w) (S (sent w)) (net w) (rnd w) (ua_random w).

(** The world after [time.sleep] of [us] microseconds. *)
Definition slept (w : World) (us : Z) : World :=
  mkWorld (config w) (accounts w) (proxies w) (has_logger w) (store w)
          (trace w ++ [Sleep us]) (clock w + us) (tick w) (sent w) (net w) (rnd w)
          (ua_random w).

(** The world after the events [evs] have been observed. *)
Definition observed (w : World) (evs : list event) : World :=
  mkWorld (config w) (accounts w) (proxies w) (has_logger w) (store w)
          (trace w ++ evs) (clock w) (tick w) (sent w) (net w) (rnd w) (ua_random w).

(** [frame n w w']: from [w] to [w'] the fields of [self] and the
    environment are the same, the dictionaries at the addresses below [n]
    are the same, the store has not shrunk and the trace has only been
    extended. *)
Record frame (n : nat) (w w' : World) : Prop := mkFrame {
  frame_config : config w' = config w;
  frame_accounts : accounts w' = accounts w;
  frame_proxies : proxies w' = proxies w;
  frame_logger : has_logger w' = has_logger w;
  frame_net : net w' = net w;
  frame_rnd : rnd w' = rnd w;
  frame_ua : ua_random w' = ua_random w;
  frame_store : firstn n (store w') = firstn n (store w);
  frame_grow : (List.length (store w) <= List.length (store w'))%nat;
  frame_trace : exists evs, trace w' = (trace w ++ evs)%list
}.

(** [good n P m]: run where the store has at least [n] dictionaries, [m]
    keeps the frame and any value it returns satisfies [P]. *)
Definition good {A} (n : nat) (P : A -> Prop) (m : M A) : Prop :=
  forall w r w', (n <= List.length (store w))%nat -> m w = (r, w') ->
    frame n w w' /\ (forall a, r = inr a -> P a).

Definition any {A} : A -> Prop := fun _ => True.

(** What "read-only after load" says of a run from [w] to [w']: the
    accounts, the proxy list and the configuration are the same objects
    with the same content, every dictionary that existed before (the
    configured headers among them) included. *)
Definition unchanged (w w' : World) : Prop :=
  accounts w' = accounts w /\ proxies w' = proxies w /\ config w' = config w
  /\ firstn (List.length (store w)) (store w') = store w.

(** A world in which the methods can run to their end: the logger exists
    and the network raises nothing but [Exception]s (no interrupt). *)
Definition calm (w : World) : Prop :=
  has_logger w = true /\ forall i e, net w i = Raises e -> is_Exception e = true.

(** [tame m]: in a calm world [m] raises nothing but [Exception]s;
    [total m]: in a calm world [m] returns.  Both leave the world calm. *)
Definition tame {A} (m : M A) : Prop :=
  forall w r w', calm w -> m w = (r, w') ->
    calm w' /\ (forall e, r = inl e -> is_Exception e = true).

Definition total {A} (m : M A) : Prop :=
  forall w, calm w -> exists a w', m w = (inr a, w') /\ calm w'.

(** An entry of the accounts file counts unless it says [enabled: false]. *)
Definition enabled (account : raw_account) : bool :=
  or_default (raw_enabled account) true.

(** The number of [True] among the verdicts of a pass. *)
Definition successes (oks : list bool) : Z :=
  Z.of_nat (List.length (filter (fun ok : bool => ok) oks)).

(** [visits loads todo w oks w']: from [w], [sign_in] is run on each account
    of [todo] in turn, each followed by the random pause, giving the
    verdicts [oks] and ending in [w']. *)
Inductive visits (loads : Base64.bytes -> exn + json)
  : list Account -> World -> list bool -> World -> Prop :=
| visits_nil w : visits loads [] w [] w
| visits_cons account rest w ok w1 pause w2 oks w3 :
    sign_in loads account w = (inr ok, w1) ->
    uniform_2_5 w1 = (inr pause, w2) ->
    visits loads rest (slept w2 pause) oks w3 ->
    visits loads (account :: rest) w (ok :: oks) w3.

(** The specification's notion of a placeholder token. *)
Definition placeholder_shaped (tok : string) : Prop :=
  tok = "" \/ PyStr.startswith tok "your" = true
  \/ PyStr.contains "session_token" (PyStr.lower tok) = true.

(** The lines [sign_in] logs once the check-in request has been answered.
    On status 200 with a JSON body: the text, the phrase found if any, the
    classification, the content.  On status 200 with another body: the
    success line and the raw text.  On any other status: two error lines. *)
Definition first_phrase (response_text : string) : option string :=
  find (fun phrase => PyStr.contains phrase response_text) already_checked_phrases.

Definition already_line (account : Account) : event :=
  Log INFO ("Account " ++ name account ++ account_desc_of account
            ++ " already manually checked in today").

Definition success_line (account : Account) : event :=
  Log INFO ("Account " ++ name account ++ account_desc_of account
            ++ " check-in successful").

Definition accepted_events (account : Account) (r : Response) : list event :=
  match json_str r with
  | Some s =>
      Log DEBUG ("Response text: " ++ s)
      :: match first_phrase s with
         | Some phrase =>
             [Log DEBUG ("Detected already checked-in phrase: " ++ phrase);
              already_line account]
         | None => [success_line account]
         end
      ++ [Log INFO ("Response content: " ++ s)]
  | None => [success_line account; Log INFO ("Response content: " ++ text r)]
  end.

Definition rejected_events (account : Account) (r : Response) : list event :=
  [Log ERROR ("Account " ++ name account ++ account_desc_of account
              ++ " check-in failed, status: " ++ PyStr.of_Z (status_code r));
   Log ERROR ("Response: " ++ text r)].

Definition verdict_events (account : Account) (r : Response) : list event :=
  if status_code r =? 200 then accepted_events account r
  else rejected_events account r.

(** The lines logged when a request could not be transported. *)
Definition retry_line (account : Account) (attempt retry_delay : Z) (e : exn) : event :=
  Log WARNING ("Account " ++ name account ++ " attempt " ++ PyStr.of_Z (attempt + 1)
               ++ " failed: " ++ exn_text e ++ ", retrying in "
               ++ PyStr.of_Z retry_delay ++ "s...").

Definition exhausted_line (account : Account) (retry_times : Z) (e : exn) : event :=
  Log ERROR ("Account " ++ name account ++ " request failed after "
             ++ PyStr.of_Z retry_times ++ " retries: " ++ exn_text e).

Definition unknown_line (account : Account) (e : exn) : event :=
  Log ERROR ("Unknown error during check-in for " ++ name account ++ ": " ++ exn_text e).

(** The pause between two attempts, in microseconds. *)
Definition retry_pause (retry_delay : Z) : event :=
  Sleep (retry_delay * PyTime.us_per_second).

(** [self.config.get('retry_times', 3)] and [self.config.get('retry_delay', 5)] *)
Definition retry_times_of (c : Config) : Z := or_default (cfg_retry_times c) 3.
Definition retry_delay_of (c : Config) : Z := or_default (cfg_retry_delay c) 5.

(** The ['.']-separated segments of a token, and the middle one of a
    three-segment token. *)
Definition segments (tok : string) : list string := PyStr.split "." tok.
Definition middle (tok : string) : string := nth 1 (segments tok) "".

(** A token whose middle segment decodes to a JSON object with an [exp]
    member [x]. *)
Definition carries_exp (loads : Base64.bytes -> exn + json) (tok : string) (x : json)
  : Prop :=
  3 <= Z.of_nat (List.length (segments tok))
  /\ exists bs entries,
       Base64.b64decode (pad (middle tok)) = inr bs
       /\ loads bs = inr (JDict entries)
       /\ PyObj.lookup "exp" entries = Some x.

(** Two sentences of the specification as they are worded, for every
    three-segment token carrying an [exp]: the expiry alone decides the
    verdict; an [exp] that is no timestamp always yields [True]. *)
Definition expiry_decides_for_every_token : Prop :=
  forall loads account w x us,
    has_logger w = true ->
    carries_exp loads (session_token account) x ->
    PyTime.fromtimestamp x = inr us ->
    fst (check_token_validity loads account w)
    = inr (Some (negb (us <=? clock w + PyTime.minutes 30))).

Definition bad_exp_accepted_for_every_token : Prop :=
  forall loads account w x e,
    has_logger w = true ->
    carries_exp loads (session_token account) x ->
    PyTime.fromtimestamp x = inl e ->
    fst (check_token_validity loads account w) = inr (Some true).

(** *** Checks over finite ranges

    The facts about sextets and bytes that the base64 round trip rests on
    are decided by running the definitions over every sextet and every
    pair of bytes. *)

(** [0, 1, ..., n - 1] *)
Definition zrange (n : nat) : list Z := map Z.of_nat (seq 0 n).

(** A sextet is printed as an alphabet character that reads back as the
    sextet and is neither the pad, nor the dot, nor outside ASCII. *)
Definition sextet_ok (v : Z) : bool :=
  match Base64.a2b (Base64.b2a v) with
  | Some v' => (v' =? v) && negb (Ascii.eqb (Base64.b2a v) "="%char)
               && negb (Ascii.eqb (Base64.b2a v) "."%char)
               && Base64.is_ascii (Base64.b2a v)
  | None => false
  end.

(** For bytes [a] and [b]: the sextets cut from a byte and its neighbour
    are sextets, and the shifts of the decoder put the byte back. *)
Definition quad_ok (a b : Z) : bool :=
  let v1 := Z.shiftr a 2 in
  let v2 := Z.lor (Z.shiftl (Z.land a 3) 4) (Z.shiftr b 4) in
  let v3 := Z.lor (Z.shiftl (Z.land a 15) 2) (Z.shiftr b 6) in
  let v4 := Z.land a 63 in
  (v1 <? 64) && (v2 <? 64) && (v3 <? 64) && (v4 <? 64)
  && (0 <=? v1) && (0 <=? v2) && (0 <=? v3) && (0 <=? v4)
  && (0 <=? Z.shiftl (Z.land a 3) 4) && (Z.shiftl (Z.land a 3) 4 <? 64)
  && (0 <=? Z.shiftl (Z.land a 15) 2) && (Z.shiftl (Z.land a 15) 2 <? 64)
  && (Z.land (Z.lor (Z.shiftl v1 2) (Z.shiftr v2 4)) 255 =? a)
  && (Z.land (Z.lor (Z.shiftl v1 2) (Z.shiftr (Z.shiftl (Z.land a 3) 4) 4)) 255 =? a)
  && (Z.land v2 15 =? Z.shiftr b 4)
  && (Z.land (Z.lor (Z.shiftl (Z.shiftr a 4) 4) (Z.shiftr v3 2)) 255 =? a)
  && (Z.land (Z.lor (Z.shiftl (Z.shiftr a 4) 4) (Z.shiftr (Z.shiftl (Z.land a 15) 2) 2)) 255 =? a)
  && (Z.land v3 3 =? Z.shiftr b 6)
  && (Z.land (Z.lor (Z.shiftl (Z.shiftr a 6) 6) v4) 255 =? a).

(** The four pads that [pad] appends to an encoding. *)
Definition pad4 : list ascii := ["="; "="; "="; "="]%char.

(** The bytes of the JSON object with the single member [exp] =
    9999999999 (November 2286). *)
Definition exp_2286_bytes : Base64.bytes :=
  match Base64.b64decode "eyJleHAiOjk5OTk5OTk5OTl9" with
  | inr bs => bs
  | inl _ => []
  end.

(** The round-trip sentence of the specification as it is worded, for
    every header segment. *)
Definition fabricated_token_accepted_for_every_header : Prop :=
  forall loads hdr sig bs e account w,
    has_logger w = true ->
    session_token account = hdr ++ "." ++ Base64.b64encode bs ++ "." ++ sig ->
    PyStr.count "." hdr = 0 ->
    loads bs = inr (JDict [("exp", JInt e)]) ->
    PyTime.in_range (e * PyTime.us_per_second) = true ->
    clock w + PyTime.minutes 30 < e * PyTime.us_per_second ->
    fst (check_token_validity loads account w) = inr (Some true).

(** A configured bot to run the methods on: retry budget 3, delay 5 s, one
    base header, no proxy, a clock in November 2025. *)
Definition demo_config : Config :=
  mkConfig (Some 3) (Some 5) (Some O) (Some "https://app.piggycell.io/api/trpc/checkin").

Definition demo_world (accts : list Account) (net0 : nat -> net_outcome) : World :=
  mkWorld demo_config accts [] true [[("accept", "application/json")]] []
          1762214400000000 O O net0 (fun _ => O) (fun _ => Some "Mozilla/5.0").

Definition ok_response : Response := mkResponse 200 "[]" (Some "[]").

(** Three enabled accounts, the second still holding the template token. *)
Definition three_accounts : list Account :=
  [ mkAccount "first" "opaque-session-value" "" "";
    mkAccount "second" "your_session_token_here" "" "";
    mkAccount "third" "another-opaque-value" "" "main" ].

(** A network that answers the first request and then is down. *)
Definition down_after_first (n : nat) : net_outcome :=
  match n with
  | O => Responds ok_response
  | S _ => Raises RequestException
  end.

(** A verdict that is one of Python's two booleans, not [None]. *)
Definition is_bool (v : option bool) : Prop := v <> None.

(** A string that is empty or starts with a character that is no blank. *)
Definition head_nonspace (s : string) : bool :=
  match s with
  | EmptyString => true
  | String c _ => negb (PyStr.is_space c)
  end.

(** The lines of the proxy file that [load_proxies] keeps, once stripped. *)
Definition is_proxy_line (line : string) : bool :=
  negb (String.eqb line "") && negb (PyStr.startswith line "#").

(** An entry of the accounts file that has both required keys, and the
    account [load_accounts] makes of it. *)
Definition complete (entry : raw_account) : bool :=
  match raw_name entry, raw_session_token entry with
  | Some _, Some _ => true
  | _, _ => false
  end.

Definition account_of_entry (entry : raw_account) : Account :=
  mkAccount (or_default (raw_name entry) "") (or_default (raw_session_token entry) "")
            (or_default (raw_cookies entry) "") (or_default (raw_description entry) "").

(** * Properties *)

Lemma placeholder_shaped_iff tok :
  placeholder_shaped tok <-> is_placeholder tok = true.
Proof.
  unfold placeholder_shaped, is_placeholder.
  rewrite !orb_true_iff, String.eqb_eq. tauto.
Qed.

Lemma not_placeholder tok : ~ placeholder_shaped tok -> is_placeholder tok = false.
Proof.
  intros Hp. destruct (is_placeholder tok) eqn:E; [|reflexivity].
  exfalso. apply Hp, placeholder_shaped_iff, E.
Qed.

(** *** The frame of the primitives *)

Lemma frame_refl n w : frame n w w.
Proof.
  constructor; try reflexivity; try lia.
  exists []. now rewrite app_nil_r.
Qed.

Lemma frame_trans n w1 w2 w3 : frame n w1 w2 -> frame n w2 w3 -> frame n w1 w3.
Proof.
  intros [] []. constructor; try congruence; try lia.
  destruct frame_trace0 as [e1 H1], frame_trace1 as [e2 H2].
  exists (e1 ++ e2)%list. rewrite H2, H1. now rewrite app_assoc.
Qed.

Lemma good_ret {A} n (P : A -> Prop) a : P a -> good n P (ret a).
Proof.
  intros HP w r w' _ H. inversion H; subst. split; [apply frame_refl|].
  intros ? [= <-]. exact HP.
Qed.

Lemma good_raise {A} n (P : A -> Prop) e : good n P (raise e).
Proof.
  intros w r w' _ H. inversion H; subst. split; [apply frame_refl|]. discriminate.
Qed.

Lemma good_weaken {A} n (P Q : A -> Prop) m :
  good n P m -> (forall a, P a -> Q a) -> good n Q m.
Proof.
  intros Hm HPQ w r w' Hn H. destruct (Hm w r w' Hn H) as [F V]. split; auto.
Qed.

Lemma good_bind {A B} n (P : A -> Prop) (Q : B -> Prop) m k :
  good n P m -> (forall a, P a -> good n Q (k a)) -> good n Q (bind m k).
Proof.
  intros Hm Hk w r w' Hn H. unfold bind in H.
  destruct (m w) as [[e|a] w1] eqn:E.
  - inversion H; subst. destruct (Hm _ _ _ Hn E). split; [assumption|discriminate].
  - destruct (Hm _ _ _ Hn E) as [F V].
    assert (Hn1 : (n <= List.length (store w1))%nat) by (destruct F; lia).
    destruct (Hk a (V a eq_refl) _ _ _ Hn1 H) as [F' V'].
    split; [eapply frame_trans; eassumption | assumption].
Qed.

Lemma good_try_except {A} n (P : A -> Prop) m c h :
  good n P m -> (forall e, good n P (h e)) -> good n P (try_except m c h).
Proof.
  intros Hm Hh w r w' Hn H. unfold try_except in H.
  destruct (m w) as [[e|a] w1] eqn:E.
  - destruct (Hm _ _ _ Hn E) as [F V].
    assert (Hn1 : (n <= List.length (store w1))%nat) by (destruct F; lia).
    destruct (c e).
    + destruct (Hh e _ _ _ Hn1 H) as [F' V'].
      split; [eapply frame_trans; eassumption | assumption].
    + inversion H; subst. split; [assumption|discriminate].
  - inversion H; subst. exact (Hm _ _ _ Hn E).
Qed.

Lemma good_try_except2 {A} n (P : A -> Prop) m c1 h1 c2 h2 :
  good n P m -> (forall e, good n P (h1 e)) -> (forall e, good n P (h2 e)) ->
  good n P (try_except2 m c1 h1 c2 h2).
Proof.
  intros Hm H1 H2 w r w' Hn H. unfold try_except2 in H.
  destruct (m w) as [[e|a] w1] eqn:E.
  - destruct (Hm _ _ _ Hn E) as [F V].
    assert (Hn1 : (n <= List.length (store w1))%nat) by (destruct F; lia).
    destruct (c1 e); [|destruct (c2 e)].
    + destruct (H1 e _ _ _ Hn1 H) as [F' V'].
      split; [eapply frame_trans; eassumption | assumption].
    + destruct (H2 e _ _ _ Hn1 H) as [F' V'].
      split; [eapply frame_trans; eassumption | assumption].
    + inversion H; subst. split; [assumption|discriminate].
  - inversion H; subst. exact (Hm _ _ _ Hn E).
Qed.

(** A primitive that rebuilds the world without touching the protected
    fields keeps the frame. *)
Ltac frame_fields :=
  constructor; cbn;
  try reflexivity; try lia;
  try (exists []; now rewrite app_nil_r);
  try (eexists; reflexivity).

Ltac prim :=
  let w := fresh "w" in let r := fresh "r" in let w' := fresh "w'" in
  let Hn := fresh "Hn" in let H := fresh "H" in
  intros w r w' Hn H; cbv beta delta [any] in *;
  inversion H; subst; clear H;
  split; [frame_fields | intros; exact I].

Lemma good_get n : good n any get.
Proof. prim. Qed.

Lemma good_emit n e : good n any (emit e).
Proof. prim. Qed.

Lemma good_next_tick n : good n any next_tick.
Proof. prim. Qed.

Lemma good_next_sent n : good n any next_sent.
Proof. prim. Qed.

Lemma good_advance n us : good n any (advance us).
Proof. prim. Qed.

Lemma good_any {A} n (P : A -> Prop) m : good n P m -> good n any m.
Proof. intros H. eapply good_weaken; [exact H | intros; exact I]. Qed.

Lemma good_lift {A} n (r : exn + A) : good n any (lift r).
Proof. destruct r; [apply good_raise | apply good_ret; exact I]. Qed.

Create HintDb good.

#[local] Hint Resolve good_get good_emit good_next_tick good_next_sent good_advance
  good_lift good_raise : good.

(** Steps through a method body: each [bind], handler and branch in turn. *)
Ltac good_step :=
  match goal with
  | |- good _ _ (bind _ _) => eapply (good_bind _ any); [| intros ? _]
  | |- good _ _ (try_except _ _ _) => apply good_try_except; [| intros ?]
  | |- good _ _ (try_except2 _ _ _ _ _) => apply good_try_except2; [| intros ? | intros ?]
  | |- good _ _ (ret _) => apply good_ret; exact I
  | |- good _ _ (if ?b then _ else _) => destruct b
  | |- good _ _ (match ?x with _ => _ end) => destruct x
  | |- good _ any _ => solve [eauto with good]
  end.

Ltac good_auto := repeat good_step.

Lemma good_log n lvl msg : good n any (log lvl msg).
Proof. unfold log. good_auto. Qed.

Lemma good_sleep n us : good n any (sleep us).
Proof. unfold sleep. good_auto. Qed.

Lemma good_now n : good n any now.
Proof. unfold now. good_auto. Qed.

Lemma good_choice {A} n (d : A) xs : good n any (choice d xs).
Proof. unfold choice. good_auto. Qed.

Lemma good_config_headers n : good n any config_headers.
Proof. unfold config_headers. good_auto. Qed.

Lemma good_config_api_url n : good n any config_api_url.
Proof. unfold config_api_url. good_auto. Qed.

Lemma good_dict_read n a : good n any (dict_read a).
Proof. unfold dict_read. good_auto. Qed.

#[local] Hint Resolve good_log good_sleep good_now good_choice good_config_headers
  good_config_api_url good_dict_read : good.

(** *** The store: copies are fresh, writes go to the copy *)

Lemma length_update_nth {A} (f : A -> A) l : forall a,
  List.length (update_nth a f l) = List.length l.
Proof. induction l; intros [|a']; cbn; auto. Qed.

Lemma firstn_update_nth {A} (f : A -> A) : forall n a l,
  (n <= a)%nat -> firstn n (update_nth a f l) = firstn n l.
Proof.
  induction n; intros a l Hle; [reflexivity|].
  destruct a; [lia|]. destruct l; cbn; [reflexivity|].
  f_equal. apply IHn. lia.
Qed.

Lemma good_dict_copy n a : good n (fun h => (n <= h)%nat) (dict_copy a).
Proof.
  intros w r w' Hn H. unfold dict_copy, bind, get, set_store, ret in H.
  inversion H; subst; clear H. split.
  - constructor; cbn; try reflexivity.
    + rewrite firstn_app.
      replace (n - List.length (store w))%nat with O by lia.
      cbn. now rewrite app_nil_r.
    + rewrite length_app. lia.
    + exists []. now rewrite app_nil_r.
  - intros ? [= <-]. exact Hn.
Qed.

Lemma good_dict_set n h k v : (n <= h)%nat -> good n any (dict_set h k v).
Proof.
  intros Hh w r w' Hn H. unfold dict_set, bind, get, set_store in H.
  inversion H; subst; clear H. split; [|intros; exact I].
  constructor; cbn; try reflexivity.
  - now apply firstn_update_nth.
  - rewrite length_update_nth. lia.
  - exists []. now rewrite app_nil_r.
Qed.

Lemma good_get_random_proxy n : good n any get_random_proxy.
Proof. unfold get_random_proxy. good_auto. Qed.

Lemma good_get_random_user_agent n : good n any get_random_user_agent.
Proof. unfold get_random_user_agent. good_auto. Qed.

Lemma good_answer n : good n any answer.
Proof. unfold answer. good_auto. Qed.

#[local] Hint Resolve good_get_random_proxy good_get_random_user_agent good_answer : good.

Lemma good_session_get n url h proxy timeout :
  good n any (session_get url h proxy timeout).
Proof. unfold session_get. good_auto. Qed.

Lemma good_session_post n url h today proxy timeout :
  good n any (session_post url h today proxy timeout).
Proof. unfold session_post. good_auto. Qed.

#[local] Hint Resolve good_session_get good_session_post : good.

Lemma good_test_token_body n account : good n any (test_token_body account).
Proof.
  unfold test_token_body.
  eapply (good_bind _ any); [good_auto | intros h0 _].
  eapply good_bind; [apply good_dict_copy | intros h Hh; cbn beta in Hh].
  eapply (good_bind _ any); [good_auto | intros ua _].
  eapply (good_bind _ any); [now apply good_dict_set | intros _ _].
  eapply (good_bind _ any); [now apply good_dict_set | intros _ _].
  good_auto.
Qed.

Lemma good_test_token_with_api n account : good n any (test_token_with_api account).
Proof.
  unfold test_token_with_api. pose proof (good_test_token_body n account).
  good_auto.
Qed.

Lemma good_scan_phrases n text : forall phrases, good n any (scan_phrases phrases text).
Proof. induction phrases as [|p ps IH]; cbn; good_auto. Qed.

Lemma good_on_status_200 n account response : good n any (on_status_200 account response).
Proof.
  unfold on_status_200, response_json. pose proof (good_scan_phrases n) as Hs.
  good_auto.
Qed.

Lemma good_build_request n account attempt : good n any (build_request account attempt).
Proof.
  unfold build_request.
  eapply (good_bind _ any); [good_auto | intros h0 _].
  eapply good_bind; [apply good_dict_copy | intros h Hh; cbn beta in Hh].
  eapply (good_bind _ any); [good_auto | intros ua _].
  eapply (good_bind _ any); [now apply good_dict_set | intros _ _].
  eapply (good_bind _ any); [now apply good_dict_set | intros _ _].
  good_auto.
Qed.

Lemma good_classify n account response : good n any (classify account response).
Proof.
  unfold classify. pose proof (good_on_status_200 n account response). good_auto.
Qed.

Lemma good_attempt_body n account attempt : good n any (attempt_body account attempt).
Proof.
  unfold attempt_body.
  pose proof (good_build_request n account attempt).
  pose proof (good_classify n account).
  good_auto.
Qed.

Lemma good_attempt_once n account rt rd attempt :
  good n any (attempt_once account rt rd attempt).
Proof.
  unfold attempt_once. pose proof (good_attempt_body n account attempt) as Hb.
  good_auto.
Qed.

Lemma good_attempts n account rt rd : forall remaining attempt,
  good n any (attempts account rt rd remaining attempt).
Proof.
  induction remaining as [|k IH]; intros attempt; cbn [attempts].
  - good_auto.
  - eapply (good_bind _ any); [apply good_attempt_once | intros [b|] _].
    + good_auto.
    + apply IH.
Qed.

(** *** Running the logger *)

Lemma run_log lvl msg w :
  has_logger w = true -> log lvl msg w = (inr tt, observed w [Log lvl msg]).
Proof.
  intros Hl. cbv beta iota delta [log bind get emit]. now rewrite Hl.
Qed.

Lemma observed_observed w a b : observed (observed w a) b = observed w (a ++ b)%list.
Proof. unfold observed. cbn. now rewrite app_assoc. Qed.

Lemma network_calls_app a b :
  network_calls (a ++ b) = (network_calls a ++ network_calls b)%list.
Proof. apply filter_app. Qed.

(** *** The validation probe *)

Ltac run_world w :=
  destruct w as [cfg accts prox hl st tr clk tk sn nt rn ua];
  cbn [config accounts proxies has_logger store trace clock tick sent net rnd ua_random] in *;
  subst.

Ltac run_probe :=
  unfold test_token_with_api, test_token_body, try_except, config_headers,
    get_random_user_agent, get_random_proxy, session_get, answer, dict_copy, dict_set,
    dict_read, choice, log;
  cbv beta iota delta [bind get ret raise emit next_tick next_sent set_store
    config accounts proxies has_logger store trace clock tick sent net rnd ua_random].

Lemma test_api_responds account w h r :
  has_logger w = true -> cfg_headers (config w) = Some h ->
  net w (sent w) = Responds r ->
  fst (test_token_with_api account w) = inr (Some (status_code r =? 200)).
Proof.
  intros Hl Hh Hn. run_world w. run_probe.
  rewrite Hh. cbv beta iota.
  destruct (ua tk); cbv beta iota; destruct prox; cbv beta iota; rewrite Hn; cbv beta iota;
  destruct (status_code r =? 200); reflexivity.
Qed.

Lemma test_api_raises account w e :
  has_logger w = true -> is_Exception e = true ->
  net w (sent w) = Raises e ->
  fst (test_token_with_api account w) = inr (Some true).
Proof.
  intros Hl He Hn. run_world w. run_probe.
  destruct (cfg_headers cfg); cbv beta iota; [|reflexivity].
  destruct (ua tk); cbv beta iota; destruct prox; cbv beta iota; rewrite Hn; cbv beta iota;
  rewrite He; reflexivity.
Qed.

(** A [try] whose handler only logs and returns: an exception of a handled
    class becomes the value [v], after one more line in the log. *)
Lemma try_except_logs {A} (m : M A) c lvl msg (v : A) w e w1 :
  good O any m -> has_logger w = true ->
  m w = (inl e, w1) -> c e = true ->
  try_except m c (fun e => log lvl (msg e) ;; ret v) w
  = (inr v, observed w1 [Log lvl (msg e)]).
Proof.
  intros Hm Hl E Hc. unfold try_except. rewrite E, Hc.
  destruct (Hm w _ _ (Nat.le_0_l _) E) as [F _].
  unfold bind. rewrite run_log by (destruct F; congruence). reflexivity.
Qed.

Lemma try_except_contains {A} (m : M A) c lvl msg (v : A) w e w' :
  good O any m -> has_logger w = true ->
  try_except m c (fun e => log lvl (msg e) ;; ret v) w = (inl e, w') ->
  c e = false.
Proof.
  intros Hm Hl H.
  destruct (m w) as [[e1|a] w1] eqn:E.
  - destruct (c e1) eqn:Hc.
    + rewrite (try_except_logs m c lvl msg v w e1 w1 Hm Hl E Hc) in H. discriminate.
    + unfold try_except in H. rewrite E, Hc in H. inversion H; subst. exact Hc.
  - unfold try_except in H. rewrite E in H. discriminate.
Qed.

Lemma test_api_fail_open account w e w' :
  has_logger w = true -> test_token_with_api account w = (inl e, w') ->
  is_Exception e = false.
Proof.
  intros Hl H. unfold test_token_with_api in H.
  eapply try_except_contains in H; [exact H | apply good_test_token_body | exact Hl].
Qed.

(** A [try] around a computation that raises nothing of the handled
    classes is that computation. *)
Lemma try_except_skip {A} (m : M A) c h w :
  (forall e w', m w = (inl e, w') -> c e = false) ->
  try_except m c h w = m w.
Proof.
  intros H. unfold try_except. destruct (m w) as [[e|a] w'] eqn:E; [|reflexivity].
  now rewrite (H e w' eq_refl).
Qed.

(** *** Dots and segments *)

Lemma count_nonneg c s : 0 <= PyStr.count c s.
Proof.
  induction s as [|d s IH]; cbn [PyStr.count]; [lia | destruct (Ascii.eqb c d); lia].
Qed.

Lemma startswith_empty s : PyStr.startswith s "" = true.
Proof. destruct s; reflexivity. Qed.

Lemma count_pos_contains c s :
  0 < PyStr.count c s -> PyStr.contains (String c "") s = true.
Proof.
  induction s as [|d s IH]; cbn [PyStr.count PyStr.contains PyStr.startswith]; [lia|].
  intros H. destruct (Ascii.eqb c d) eqn:E.
  - now rewrite startswith_empty.
  - cbn. apply IH. lia.
Qed.

Lemma length_split c s :
  Z.of_nat (List.length (PyStr.split c s)) = PyStr.count c s + 1.
Proof.
  induction s as [|d s IH]; [reflexivity|].
  pose proof (count_nonneg c s) as Hc.
  cbn [PyStr.split PyStr.count]. destruct (Ascii.eqb c d).
  - cbn [List.length]. lia.
  - destruct (PyStr.split c s); cbn [List.length] in *; lia.
Qed.

(** *** One check-in attempt *)

Lemma run_scan_phrases text w : forall phrases,
  has_logger w = true ->
  scan_phrases phrases text w
  = match find (fun phrase => PyStr.contains phrase text) phrases with
    | Some phrase =>
        (inr true, observed w [Log DEBUG ("Detected already checked-in phrase: " ++ phrase)])
    | None => (inr false, w)
    end.
Proof.
  induction phrases as [|p ps IH]; intros Hl; cbn [scan_phrases find]; [reflexivity|].
  destruct (PyStr.contains p text).
  - unfold bind. now rewrite run_log.
  - now apply IH.
Qed.

Lemma has_logger_observed w evs : has_logger (observed w evs) = has_logger w.
Proof. reflexivity. Qed.

Ltac run_logs Hl :=
  repeat (rewrite run_log by exact Hl; cbv beta iota);
  rewrite ?observed_observed; cbn [app].

Lemma run_on_status_200 account r w :
  has_logger w = true ->
  on_status_200 account r w = (inr true, observed w (accepted_events account r)).
Proof.
  intros Hl. unfold on_status_200, accepted_events, response_json, first_phrase.
  cbv beta iota delta [bind try_except raise ret].
  destruct (json_str r) as [s|]; cbv beta iota.
  - rewrite run_log by exact Hl. cbv beta iota.
    rewrite run_scan_phrases by exact Hl.
    destruct (find _ already_checked_phrases) as [p|]; cbv beta iota;
      run_logs Hl; reflexivity.
  - run_logs Hl. reflexivity.
Qed.

Ltac run_request :=
  unfold build_request, config_headers, config_api_url, get_random_user_agent,
    get_random_proxy, dict_copy, dict_set, dict_read, choice, now, log;
  cbv beta iota delta [bind get ret raise emit next_tick next_sent set_store
    config accounts proxies has_logger store trace clock tick sent net rnd ua_random].

(** Building the request sends nothing: it succeeds with the configured
    URL after at most one log line. *)
Lemma run_build_request account k w h u :
  has_logger w = true ->
  cfg_headers (config w) = Some h -> cfg_api_url (config w) = Some u ->
  exists req w0 evs,
    build_request account k w = (inr req, w0)
    /\ trace w0 = (trace w ++ evs)%list /\ req_url req = u
    /\ forallb is_log evs = true /\ sent w0 = sent w.
Proof.
  intros Hl Hh Hu. run_world w. run_request. rewrite Hh. cbv beta iota.
  destruct (ua tk) as [agent|]; cbv beta iota;
    destruct prox as [|p ps]; cbv beta iota;
    destruct (k =? 0); cbv beta iota; rewrite Hu; cbv beta iota.
  all: eexists; eexists; eexists; split; [reflexivity|]; cbn.
  all: split; [try reflexivity; try (symmetry; apply app_nil_r) | ].
  all: split; [reflexivity | split; reflexivity].
Qed.

Lemma run_session_post u h today proxy t w :
  session_post u h today proxy t w
  = (match net w (sent w) with Responds r => inr r | Raises e => inl e end,
     posted w (HttpPost u (nth h (store w) []) today proxy t)).
Proof.
  destruct w as [cfg accts prox hl st tr clk tk sn nt rn ua].
  unfold session_post, dict_read, answer, posted.
  cbv beta iota delta [bind get ret raise emit next_sent
    config accounts proxies has_logger store trace clock tick sent net rnd ua_random].
  destruct (nt sn); reflexivity.
Qed.

Lemma run_classify account r w :
  has_logger w = true ->
  classify account r w = (inr (status_code r =? 200), observed w (verdict_events account r)).
Proof.
  intros Hl. unfold classify, verdict_events. destruct (status_code r =? 200).
  - now apply run_on_status_200.
  - unfold rejected_events. cbv beta iota delta [bind ret]. run_logs Hl. reflexivity.
Qed.

Lemma logs_only evs :
  forallb is_log evs = true ->
  filter is_post evs = [] /\ filter is_sleep evs = [] /\ filter is_network evs = [].
Proof.
  induction evs as [|e evs IH]; cbn; [auto|].
  intros H. apply andb_true_iff in H as [He H]. destruct e; try discriminate.
  cbn. auto.
Qed.

Lemma frame_posted n w ev : frame n w (posted w ev).
Proof. frame_fields. Qed.

Lemma frame_observed n w evs : frame n w (observed w evs).
Proof. frame_fields. Qed.

Lemma frame_slept n w us : frame n w (slept w us).
Proof. frame_fields. Qed.

Lemma run_sleep us w : sleep us w = (inr tt, slept w us).
Proof. reflexivity. Qed.

(** One attempt sends one request and then follows the answer. *)
Lemma run_attempt_body account k w h u :
  has_logger w = true ->
  cfg_headers (config w) = Some h -> cfg_api_url (config w) = Some u ->
  exists w1 pre,
    frame O w w1 /\ sent w1 = S (sent w) /\ trace w1 = (trace w ++ pre)%list
    /\ List.length (filter is_post pre) = 1%nat /\ filter is_sleep pre = []
    /\ attempt_body account k w
       = match net w (sent w) with
         | Responds r =>
             (inr (status_code r =? 200), observed w1 (verdict_events account r))
         | Raises e => (inl e, w1)
         end.
Proof.
  intros Hl Hh Hu.
  destruct (run_build_request account k w h u Hl Hh Hu)
    as (req & w0 & evs & Hb & Htr & _ & Hlogs & Hsent).
  destruct (good_build_request O account k w _ _ (Nat.le_0_l _) Hb) as [F0 _].
  destruct (logs_only evs Hlogs) as (Hp & Hs & _).
  set (ev := HttpPost (req_url req) (nth (req_headers req) (store w0) [])
                      (req_today req) (req_proxy req) 30).
  exists (posted w0 ev), (evs ++ [ev])%list.
  split; [eapply frame_trans; [exact F0 | apply frame_posted]|].
  split; [cbn; now rewrite Hsent|].
  split; [cbn; rewrite Htr; now rewrite app_assoc|].
  split; [rewrite filter_app, Hp; reflexivity|].
  split; [rewrite filter_app, Hs; reflexivity|].
  unfold attempt_body. unfold bind at 1. rewrite Hb.
  unfold bind. rewrite run_session_post. fold ev.
  replace (net w0) with (net w) by (destruct F0; congruence). rewrite Hsent.
  destruct (net w (sent w)) as [r|e]; [|reflexivity].
  apply run_classify. cbn. destruct F0; congruence.
Qed.

Lemma run_attempt_once account rt rd k w h u :
  has_logger w = true ->
  cfg_headers (config w) = Some h -> cfg_api_url (config w) = Some u ->
  exists w1 pre,
    frame O w w1 /\ sent w1 = S (sent w) /\ trace w1 = (trace w ++ pre)%list
    /\ List.length (filter is_post pre) = 1%nat /\ filter is_sleep pre = []
    /\ attempt_once account rt rd k w
       = match net w (sent w) with
         | Responds r =>
             (inr (Return (status_code r =? 200)),
              observed w1 (verdict_events account r))
         | Raises RequestException =>
             if k <? rt - 1 then
               (inr Continue,
                slept (observed w1 [retry_line account k rd RequestException])
                      (rd * PyTime.us_per_second))
             else
               (inr (Return false),
                observed w1 [exhausted_line account rt RequestException])
         | Raises e =>
             if is_Exception e
             then (inr (Return false), observed w1 [unknown_line account e])
             else (inl e, w1)
         end.
Proof.
  intros Hl Hh Hu.
  destruct (run_attempt_body account k w h u Hl Hh Hu)
    as (w1 & pre & F & Hs & Ht & Hp & Hz & Hb).
  exists w1, pre. repeat (split; [assumption|]).
  assert (Hl1 : has_logger w1 = true) by (destruct F; congruence).
  unfold attempt_once, try_except2. unfold bind at 1. rewrite Hb.
  destruct (net w (sent w)) as [r|e]; [reflexivity|].
  destruct e; cbn [is_Exception]; try reflexivity;
    try (cbv beta iota delta [bind ret]; rewrite run_log by exact Hl1; reflexivity).
  destruct (k <? rt - 1); cbv beta iota delta [bind ret];
    rewrite run_log by exact Hl1; cbv beta iota.
  - rewrite run_sleep. reflexivity.
  - reflexivity.
Qed.

(** *** The retry loop *)

(** [j] transport failures, then an answer: [j + 1] requests, [j] pauses,
    and the verdict of the answer. *)
Lemma attempts_answered account rt rd h u r : forall j n k w,
  has_logger w = true ->
  cfg_headers (config w) = Some h -> cfg_api_url (config w) = Some u ->
  (forall i, (i < j)%nat -> net w (sent w + i) = Raises RequestException) ->
  net w (sent w + j) = Responds r ->
  (j < n)%nat -> k + Z.of_nat n = rt ->
  exists w2 pre,
    attempts account rt rd n k w = (inr (status_code r =? 200), w2)
    /\ frame O w w2 /\ sent w2 = (sent w + S j)%nat
    /\ trace w2 = (trace w ++ pre ++ verdict_events account r)%list
    /\ List.length (filter is_post pre) = S j
    /\ filter is_sleep pre = List.repeat (retry_pause rd) j.
Proof.
  induction j as [|j IH]; intros n k w Hl Hh Hu Hfail Hans Hn Hk;
    (destruct n as [|n]; [lia|]);
    destruct (run_attempt_once account rt rd k w h u Hl Hh Hu)
      as (w1 & pre & F & Hs & Ht & Hp & Hz & Ha);
    cbn [attempts]; unfold bind at 1; rewrite Ha.
  - rewrite Nat.add_0_r in Hans. rewrite Hans. cbn [ret].
    exists (observed w1 (verdict_events account r)), pre.
    split; [reflexivity|].
    split; [eapply frame_trans; [exact F | apply frame_observed]|].
    split; [cbn; lia|].
    split; [cbn; rewrite Ht; now rewrite app_assoc|].
    split; [exact Hp | exact Hz].
  - rewrite <- (Nat.add_0_r (sent w)). rewrite (Hfail O) by lia.
    replace (k <? rt - 1) with true by (symmetry; apply Z.ltb_lt; lia).
    set (w1' := slept (observed w1 [retry_line account k rd RequestException])
                      (rd * PyTime.us_per_second)).
    assert (F' : frame O w w1').
    { eapply frame_trans; [exact F|]. eapply frame_trans;
        [apply frame_observed | apply frame_slept]. }
    destruct (IH n (k + 1) w1') as (w2 & pre2 & Hr & F2 & Hs2 & Ht2 & Hp2 & Hz2).
    + destruct F'; congruence.
    + destruct F'; congruence.
    + destruct F'; congruence.
    + intros i Hi. replace (net w1') with (net w) by (destruct F'; congruence).
      replace (sent w1' + i)%nat with (sent w + S i)%nat by (cbn; lia).
      apply Hfail. lia.
    + replace (net w1') with (net w) by (destruct F'; congruence).
      replace (sent w1' + j)%nat with (sent w + S j)%nat by (cbn; lia).
      exact Hans.
    + lia.
    + lia.
    + exists w2, (pre ++ [retry_line account k rd RequestException; retry_pause rd]
                      ++ pre2)%list.
      split; [exact Hr|].
      split; [eapply frame_trans; eassumption|].
      split; [rewrite Hs2; cbn; lia|].
      split.
      { rewrite Ht2. cbn. rewrite Ht. rewrite <- !app_assoc. reflexivity. }
      split.
      { rewrite !filter_app, !length_app, Hp, Hp2. cbn. lia. }
      { rewrite !filter_app, Hz, Hz2. reflexivity. }
Qed.

(** Nothing but transport failures: the loop uses up its [n] remaining
    attempts, pausing between them and not after the last. *)
Lemma attempts_exhausted account rt rd h u : forall n k w,
  has_logger w = true ->
  cfg_headers (config w) = Some h -> cfg_api_url (config w) = Some u ->
  (forall i, (i < n)%nat -> net w (sent w + i) = Raises RequestException) ->
  k + Z.of_nat n = rt ->
  exists w2 evs,
    attempts account rt rd n k w = (inr false, w2)
    /\ frame O w w2 /\ sent w2 = (sent w + n)%nat
    /\ trace w2 = (trace w ++ evs)%list
    /\ List.length (filter is_post evs) = n
    /\ filter is_sleep evs = List.repeat (retry_pause rd) (n - 1).
Proof.
  induction n as [|n IH]; intros k w Hl Hh Hu Hfail Hk.
  - exists w, []. cbn. rewrite app_nil_r, Nat.add_0_r.
    repeat (split; [reflexivity || apply frame_refl|]). reflexivity.
  - destruct (run_attempt_once account rt rd k w h u Hl Hh Hu)
      as (w1 & pre & F & Hs & Ht & Hp & Hz & Ha).
    cbn [attempts]. unfold bind at 1. rewrite Ha.
    rewrite <- (Nat.add_0_r (sent w)). rewrite (Hfail O) by lia.
    destruct n as [|n].
    + replace (k <? rt - 1) with false by (symmetry; apply Z.ltb_ge; lia).
      cbn [ret].
      exists (observed w1 [exhausted_line account rt RequestException]),
             (pre ++ [exhausted_line account rt RequestException])%list.
      split; [reflexivity|].
      split; [eapply frame_trans; [exact F | apply frame_observed]|].
      split; [cbn; lia|].
      split; [cbn; rewrite Ht; now rewrite app_assoc|].
      split; [rewrite filter_app, length_app, Hp; reflexivity|].
      rewrite filter_app, Hz. reflexivity.
    + replace (k <? rt - 1) with true by (symmetry; apply Z.ltb_lt; lia).
      set (w1' := slept (observed w1 [retry_line account k rd RequestException])
                        (rd * PyTime.us_per_second)).
      assert (F' : frame O w w1').
      { eapply frame_trans; [exact F|]. eapply frame_trans;
          [apply frame_observed | apply frame_slept]. }
      destruct (IH (k + 1) w1') as (w2 & evs & Hr & F2 & Hs2 & Ht2 & Hp2 & Hz2).
      * destruct F'; congruence.
      * destruct F'; congruence.
      * destruct F'; congruence.
      * intros i Hi. replace (net w1') with (net w) by (destruct F'; congruence).
        replace (sent w1' + i)%nat with (sent w + S i)%nat by (cbn; lia).
        apply Hfail. lia.
      * lia.
      * exists w2, (pre ++ [retry_line account k rd RequestException; retry_pause rd]
                        ++ evs)%list.
        split; [exact Hr|].
        split; [eapply frame_trans; eassumption|].
        split; [rewrite Hs2; cbn; lia|].
        split.
        { rewrite Ht2. cbn. rewrite Ht. rewrite <- !app_assoc. reflexivity. }
        split.
        { rewrite !filter_app, !length_app, Hp, Hp2. cbn. lia. }
        { rewrite !filter_app, Hz, Hz2. cbn. now rewrite Nat.sub_0_r. }
Qed.

(** *** The two classifications are different lines *)

Lemma string_app_inv_head (p a b : string) : (p ++ a = p ++ b)%string -> a = b.
Proof. induction p as [|c p IH]; cbn; [auto | intros [= H]; auto]. Qed.

Lemma already_line_not_success account : already_line account <> success_line account.
Proof.
  unfold already_line, success_line. intros [= H].
  apply string_app_inv_head, string_app_inv_head in H. discriminate H.
Qed.

Lemma find_existsb {A} (f : A -> bool) l :
  existsb f l = match find f l with Some _ => true | None => false end.
Proof. induction l as [|x l IH]; cbn; [reflexivity | destruct (f x); auto]. Qed.

Lemma accepted_events_already account r s :
  json_str r = Some s ->
  existsb (fun phrase => PyStr.contains phrase s) already_checked_phrases = true ->
  In (already_line account) (accepted_events account r)
  /\ ~ In (success_line account) (accepted_events account r).
Proof.
  intros Hj He. rewrite find_existsb in He. unfold accepted_events. rewrite Hj.
  unfold first_phrase. destruct (find _ already_checked_phrases) as [p|]; [|discriminate].
  split; [cbn; auto|].
  cbn. intros [H | [H | [H | [H | []]]]]; try discriminate H.
  now apply (already_line_not_success account).
Qed.

Lemma accepted_events_fresh account r s :
  json_str r = Some s ->
  existsb (fun phrase => PyStr.contains phrase s) already_checked_phrases = false ->
  In (success_line account) (accepted_events account r)
  /\ ~ In (already_line account) (accepted_events account r).
Proof.
  intros Hj He. rewrite find_existsb in He. unfold accepted_events. rewrite Hj.
  unfold first_phrase. destruct (find _ already_checked_phrases) as [p|]; [discriminate|].
  split; [cbn; auto|].
  cbn. intros [H | [H | [H | []]]]; try discriminate H.
  symmetry in H. now apply (already_line_not_success account).
Qed.

(** *** Base64: what was encoded comes back, padding included *)

Lemma zrange_forallb (P : Z -> bool) n :
  forallb P (zrange n) = true -> forall x, 0 <= x < Z.of_nat n -> P x = true.
Proof.
  intros H x Hx. rewrite forallb_forall in H. apply H.
  unfold zrange. apply in_map_iff. exists (Z.to_nat x).
  split; [lia | apply in_seq; lia].
Qed.

Lemma zb_range c : 0 <= Base64.zb c < 256.
Proof.
  unfold Base64.zb. pose proof (N_ascii_bounded c). lia.
Qed.

Lemma byte_of_zb c : Base64.byte_of_Z (Base64.zb c) = c.
Proof.
  unfold Base64.byte_of_Z, Base64.zb.
  destruct c as [[] [] [] [] [] [] [] []]; reflexivity.
Qed.

Lemma sextets_ok : forallb sextet_ok (zrange 64) = true.
Proof. vm_compute. reflexivity. Qed.

Lemma quads_ok : forallb (fun a => forallb (quad_ok a) (zrange 256)) (zrange 256) = true.
Proof. vm_compute. reflexivity. Qed.

Lemma sextet_facts v :
  0 <= v < 64 ->
  Base64.a2b (Base64.b2a v) = Some v
  /\ Ascii.eqb (Base64.b2a v) "="%char = false
  /\ Ascii.eqb (Base64.b2a v) "."%char = false
  /\ Base64.is_ascii (Base64.b2a v) = true.
Proof.
  intros Hv. pose proof (zrange_forallb _ 64 sextets_ok v Hv) as H.
  unfold sextet_ok in H. destruct (Base64.a2b (Base64.b2a v)) as [v'|]; [|discriminate].
  repeat (apply andb_true_iff in H as [H ?]).
  apply Z.eqb_eq in H. subst v'.
  repeat split; try assumption; now apply negb_true_iff.
Qed.

Lemma quad_facts a b :
  quad_ok (Base64.zb a) (Base64.zb b) = true.
Proof.
  pose proof (zb_range a) as Ha. pose proof (zb_range b) as Hb.
  pose proof (zrange_forallb _ 256 quads_ok _ Ha) as H. cbv beta in H.
  exact (zrange_forallb _ 256 H _ Hb).
Qed.

Lemma loop_sextet st v s :
  0 <= v < 64 ->
  Base64.loop st (Base64.b2a v :: s) = Base64.loop (Base64.feed st v) s.
Proof.
  intros Hv. destruct (sextet_facts v Hv) as (Ha & He & _ & _).
  cbn [Base64.loop]. unfold Base64.step. now rewrite He, Ha.
Qed.

Ltac quad_split H :=
  unfold quad_ok in H; cbv zeta in H;
  repeat (apply andb_true_iff in H as [H ?]);
  repeat match goal with
         | X : (_ <? _) = true |- _ => apply Z.ltb_lt in X
         | X : (_ <=? _) = true |- _ => apply Z.leb_le in X
         | X : (_ =? _) = true |- _ => apply Z.eqb_eq in X
         end.

Lemma byte_eq n c : Z.land n 255 = Base64.zb c -> Base64.byte_of_Z n = c.
Proof.
  intros H. unfold Base64.byte_of_Z. rewrite H. unfold Base64.zb.
  rewrite N2Z.id. apply ascii_N_embedding.
Qed.

Lemma loop_pad4 out :
  Base64.loop (Base64.mkD 0 0 0 out) pad4 = inr (rev out).
Proof. reflexivity. Qed.

Lemma loop_tail2 lc out :
  Base64.loop (Base64.mkD 2 lc 0 out) ("="%char :: "="%char :: pad4) = inr (rev out).
Proof. reflexivity. Qed.

Lemma loop_tail3 lc out :
  Base64.loop (Base64.mkD 3 lc 0 out) ("="%char :: pad4) = inr (rev out).
Proof. reflexivity. Qed.

Ltac feed_sextets :=
  cbn [Base64.b64encode_list app];
  repeat (rewrite loop_sextet by lia; unfold Base64.feed;
          cbn [Base64.quad_pos Z.eqb Pos.eqb Base64.out Base64.leftchar]).

Ltac bytes_back :=
  repeat match goal with
         | |- _ :: _ = _ :: _ => f_equal
         end;
  try (apply byte_eq;
       repeat match goal with
              | H : Z.land ?x ?k = _ |- context [Z.land ?x ?k] => rewrite H
              end; reflexivity).

Lemma loop_triple a b c out rest :
  Base64.loop (Base64.mkD 0 0 0 out) (Base64.b64encode_list [a; b; c] ++ rest)
  = Base64.loop (Base64.mkD 0 0 0 (c :: b :: a :: out)) rest.
Proof.
  pose proof (quad_facts a b) as Hab. pose proof (quad_facts b c) as Hbc.
  pose proof (quad_facts c c) as Hcc.
  quad_split Hab. quad_split Hbc. quad_split Hcc.
  feed_sextets. do 2 f_equal. bytes_back.
Qed.

Lemma loop_single a out :
  Base64.loop (Base64.mkD 0 0 0 out) (Base64.b64encode_list [a] ++ pad4)
  = inr (rev (a :: out)).
Proof.
  pose proof (quad_facts a a) as Haa. quad_split Haa.
  feed_sextets. rewrite loop_tail2. do 2 f_equal. bytes_back.
Qed.

Lemma loop_pair a b out :
  Base64.loop (Base64.mkD 0 0 0 out) (Base64.b64encode_list [a; b] ++ pad4)
  = inr (rev (b :: a :: out)).
Proof.
  pose proof (quad_facts a b) as Hab. pose proof (quad_facts b b) as Hbb.
  quad_split Hab. quad_split Hbb.
  feed_sextets. rewrite loop_tail3. do 2 f_equal. bytes_back.
Qed.

Lemma list_ind3 {A} (P : list A -> Prop) :
  P [] -> (forall a, P [a]) -> (forall a b, P [a; b]) ->
  (forall a b c l, P l -> P (a :: b :: c :: l)) ->
  forall l, P l.
Proof.
  intros H0 H1 H2 H3.
  assert (H : forall l, P l /\ (forall a, P (a :: l)) /\ (forall a b, P (a :: b :: l))).
  { induction l as [|x l (IH0 & IH1 & IH2)]; [auto|].
    split; [apply IH1 | split; [intros; apply IH2 | intros; now apply H3]]. }
  intros l. apply H.
Qed.

Lemma encode_triple a b c l :
  Base64.b64encode_list (a :: b :: c :: l)
  = (Base64.b64encode_list [a; b; c] ++ Base64.b64encode_list l)%list.
Proof. reflexivity. Qed.

Lemma loop_encoded : forall bs out,
  Base64.loop (Base64.mkD 0 0 0 out) (Base64.b64encode_list bs ++ pad4)
  = inr (rev out ++ bs)%list.
Proof.
  induction bs as [|a|a b|a b c l IH] using list_ind3; intros out.
  - cbn [Base64.b64encode_list app]. rewrite loop_pad4. now rewrite app_nil_r.
  - rewrite loop_single. reflexivity.
  - rewrite loop_pair. cbn. now rewrite <- !app_assoc.
  - rewrite encode_triple, <- app_assoc, loop_triple, IH.
    cbn. now rewrite <- !app_assoc.
Qed.

(** Every character of an encoding is a printed sextet or a pad. *)
Ltac sextet_chars :=
  cbn [Base64.b64encode_list forallb List.length];
  repeat match goal with
         | |- context [Base64.b2a ?v] =>
             let F := fresh in
             assert (F : 0 <= v < 64) by lia;
             destruct (sextet_facts v F) as (_ & _ & ? & ?); clear F;
             generalize dependent (Base64.b2a v); intros
         end;
  repeat split; repeat (apply andb_true_iff; split); auto;
  try (apply negb_true_iff; assumption).

Lemma encoded_chars : forall bs,
  forallb Base64.is_ascii (Base64.b64encode_list bs) = true
  /\ forallb (fun c => negb (Ascii.eqb c "."%char)) (Base64.b64encode_list bs) = true
  /\ (Z.of_nat (List.length (Base64.b64encode_list bs)) mod 4 = 0).
Proof.
  induction bs as [|a|a b|a b c l (IH1 & IH2 & IH3)] using list_ind3.
  - repeat split.
  - pose proof (quad_facts a a) as H. quad_split H.
    sextet_chars.
  - pose proof (quad_facts a b) as H. pose proof (quad_facts b b) as H'.
    quad_split H. quad_split H'.
    sextet_chars.
  - pose proof (quad_facts a b) as H. pose proof (quad_facts b c) as H'.
    pose proof (quad_facts c c) as H''.
    quad_split H. quad_split H'. quad_split H''.
    sextet_chars.
    rewrite !Nat2Z.inj_succ.
    replace (Z.succ (Z.succ (Z.succ (Z.succ (Z.of_nat (List.length (Base64.b64encode_list l)))))))
      with (Z.of_nat (List.length (Base64.b64encode_list l)) + 1 * 4) by lia.
    now rewrite Z_mod_plus_full.
Qed.


Lemma length_string_of_list l :
  String.length (string_of_list_ascii l) = List.length l.
Proof. induction l; cbn; congruence. Qed.

Lemma list_of_string_app s1 s2 :
  list_ascii_of_string (s1 ++ s2) = (list_ascii_of_string s1 ++ list_ascii_of_string s2)%list.
Proof. induction s1; cbn; congruence. Qed.

Lemma pad_encoded bs : pad (Base64.b64encode bs) = Base64.b64encode bs ++ "====".
Proof.
  unfold pad, PyStr.len, Base64.b64encode. rewrite length_string_of_list.
  destruct (encoded_chars bs) as (_ & _ & Hm). now rewrite Hm.
Qed.

(** The padding step does no harm: whatever was encoded comes back. *)
Lemma b64decode_pad_b64encode bs :
  Base64.b64decode (pad (Base64.b64encode bs)) = inr bs.
Proof.
  rewrite pad_encoded. unfold Base64.b64decode, Base64.b64encode.
  rewrite list_of_string_app, list_ascii_of_string_of_list_ascii.
  destruct (encoded_chars bs) as (Ha & _ & _).
  rewrite forallb_app, Ha. cbn [forallb list_ascii_of_string andb Base64.is_ascii].
  change (Base64.a2b_base64 (Base64.b64encode_list bs ++ pad4) = inr bs).
  unfold Base64.a2b_base64, Base64.d0. now rewrite loop_encoded.
Qed.

Lemma count_string_of_list c l :
  forallb (fun d => negb (Ascii.eqb d c)) l = true ->
  PyStr.count c (string_of_list_ascii l) = 0.
Proof.
  induction l as [|d l IH]; [reflexivity|]. cbn [forallb string_of_list_ascii PyStr.count].
  intros H. apply andb_true_iff in H as [Hd Hl]. apply negb_true_iff in Hd.
  rewrite Ascii.eqb_sym, Hd. rewrite IH by exact Hl. reflexivity.
Qed.

Lemma b64encode_no_dot bs : PyStr.count "." (Base64.b64encode bs) = 0.
Proof.
  unfold Base64.b64encode. apply count_string_of_list.
  now destruct (encoded_chars bs) as (_ & Hd & _).
Qed.

Lemma split_app_nodot c h r :
  PyStr.count c h = 0 ->
  PyStr.split c (h ++ String c r) = h :: PyStr.split c r.
Proof.
  induction h as [|d h IH]; cbn [PyStr.count append PyStr.split].
  - intros _. now rewrite Ascii.eqb_refl.
  - pose proof (count_nonneg c h) as Hn.
    destruct (Ascii.eqb c d); [lia|]. intros H. rewrite IH by lia. reflexivity.
Qed.

Lemma fabricated_segments hdr mid sig :
  PyStr.count "." hdr = 0 -> PyStr.count "." mid = 0 ->
  3 <= Z.of_nat (List.length (segments (hdr ++ "." ++ mid ++ "." ++ sig)))
  /\ middle (hdr ++ "." ++ mid ++ "." ++ sig) = mid.
Proof.
  intros Hh Hm. unfold middle, segments.
  change (hdr ++ "." ++ mid ++ "." ++ sig) with (hdr ++ String "." (mid ++ String "." sig)).
  rewrite (split_app_nodot "." hdr _ Hh), (split_app_nodot "." mid _ Hm).
  split; [|reflexivity].
  cbn [List.length]. rewrite !Nat2Z.inj_succ.
  pose proof (length_split "." sig) as Hs. pose proof (count_nonneg "." sig). lia.
Qed.

(** *** The remaining hours, to one decimal *)

Lemma round_half_even_close q :
  (Qabs (inject_Z (PyTime.round_half_even q) - q) <= 1 # 2)%Q.
Proof.
  apply Qabs_Qle_condition.
  destruct q as [n d]. unfold PyTime.round_half_even. cbn [Qnum Qden].
  pose proof (Z.div_mod n (Z.pos d) ltac:(lia)) as Hdm.
  pose proof (Z.mod_pos_bound n (Z.pos d) ltac:(lia)) as Hr.
  set (f := n / Z.pos d) in *. set (r := n mod Z.pos d) in *.
  destruct (2 * r <? Z.pos d) eqn:E1; [apply Z.ltb_lt in E1 | apply Z.ltb_ge in E1].
  - unfold Qle, Qminus, Qplus, Qopp, inject_Z; cbn. split; nia.
  - destruct (Z.pos d <? 2 * r) eqn:E2; [apply Z.ltb_lt in E2 | apply Z.ltb_ge in E2].
    + unfold Qle, Qminus, Qplus, Qopp, inject_Z; cbn. split; nia.
    + destruct (Z.even f); unfold Qle, Qminus, Qplus, Qopp, inject_Z; cbn; split; nia.
Qed.

Lemma tenths_close h :
  (Qabs (inject_Z (PyTime.tenths h) / 10 - h) <= 1 # 20)%Q.
Proof.
  unfold PyTime.tenths.
  pose proof (round_half_even_close (h * 10)%Q) as H.
  set (t := PyTime.round_half_even (h * 10)) in *.
  assert (E : (inject_Z t / 10 - h == (inject_Z t - h * 10) * (1 # 10))%Q) by field.
  rewrite E, Qabs_Qmult.
  change (Qabs (1 # 10)) with (1 # 10)%Q.
  setoid_replace (1 # 20)%Q with ((1 # 2) * (1 # 10))%Q by reflexivity.
  apply Qmult_le_compat_r; [exact H | discriminate].
Qed.

Lemma hours_of_seconds e clk :
  (PyTime.hours_of (e * PyTime.us_per_second - clk)
   == (inject_Z e - (clk # 1000000)) / 3600)%Q.
Proof.
  unfold PyTime.hours_of, PyTime.us_per_second.
  unfold Qeq, Qdiv, Qminus, Qplus, Qmult, Qopp, Qinv, inject_Z. cbn. lia.
Qed.

(** *** Load order *)

Lemma collect_accounts_order : forall entries w accts w',
  collect_accounts entries w = (inr accts, w') ->
  map (fun a => Some (name a)) accts = map raw_name (filter enabled entries)
  /\ map (fun a => Some (session_token a)) accts
     = map raw_session_token (filter enabled entries).
Proof.
  induction entries as [|r rest IH]; intros w accts w' H; cbn [collect_accounts] in H.
  - inversion H; subst. split; reflexivity.
  - cbn [filter]. change (or_default (raw_enabled r) true) with (enabled r) in H.
    destruct (enabled r); [|exact (IH _ _ _ H)].
    unfold require in H.
    destruct (raw_name r) as [n|] eqn:En; [|discriminate H].
    destruct (raw_session_token r) as [t|] eqn:Et; [|discriminate H].
    cbv beta iota delta [bind ret] in H.
    destruct (collect_accounts rest w) as [[e|more] w1] eqn:Em; [discriminate H|].
    inversion H; subst. destruct (IH _ _ _ Em) as [IHn IHt].
    cbn [map name session_token]. rewrite En, Et, IHn, IHt. split; reflexivity.
Qed.

(** *** Which methods return *)

Lemma total_tame {A} (m : M A) : total m -> tame m.
Proof.
  intros Hm w r w' Hw E. destruct (Hm w Hw) as (a & w2 & E2 & Hw2).
  rewrite E in E2. inversion E2; subst. split; [exact Hw2 | discriminate].
Qed.

Lemma total_ret {A} (a : A) : total (ret a).
Proof. intros w Hw. exists a, w. auto. Qed.

Lemma tame_raise {A} e : is_Exception e = true -> tame (@raise A e).
Proof. intros He w r w' Hw [= <- <-]. split; [exact Hw | now intros ? [= <-]]. Qed.

Lemma total_bind {A B} (m : M A) (k : A -> M B) :
  total m -> (forall a, total (k a)) -> total (bind m k).
Proof.
  intros Hm Hk w Hw. destruct (Hm w Hw) as (a & w1 & E & Hw1).
  destruct (Hk a w1 Hw1) as (b & w2 & E2 & Hw2).
  exists b, w2. unfold bind. rewrite E. auto.
Qed.

Lemma tame_bind {A B} (m : M A) (k : A -> M B) :
  tame m -> (forall a, tame (k a)) -> tame (bind m k).
Proof.
  intros Hm Hk w r w' Hw E. unfold bind in E.
  destruct (m w) as [[e|a] w1] eqn:E1.
  - inversion E; subst. destruct (Hm _ _ _ Hw E1) as [Hw1 He].
    split; [exact Hw1 | intros ? [= <-]; now apply He].
  - destruct (Hm _ _ _ Hw E1) as [Hw1 _]. exact (Hk a _ _ _ Hw1 E).
Qed.

Lemma tame_try_except {A} (m : M A) c h :
  tame m -> (forall e, tame (h e)) -> tame (try_except m c h).
Proof.
  intros Hm Hh w r w' Hw E. unfold try_except in E.
  destruct (m w) as [[e|a] w1] eqn:E1.
  - destruct (Hm _ _ _ Hw E1) as [Hw1 He]. destruct (c e).
    + exact (Hh e _ _ _ Hw1 E).
    + inversion E; subst. split; [exact Hw1 | intros ? [= <-]; now apply He].
  - inversion E; subst. exact (Hm _ _ _ Hw E1).
Qed.

(** A handler for every [Exception] that itself returns makes the [try]
    return. *)
Lemma total_try_except {A} (m : M A) h :
  tame m -> (forall e, total (h e)) -> total (try_except m is_Exception h).
Proof.
  intros Hm Hh w Hw. unfold try_except.
  destruct (m w) as [[e|a] w1] eqn:E1.
  - destruct (Hm _ _ _ Hw E1) as [Hw1 He]. rewrite (He e eq_refl).
    exact (Hh e w1 Hw1).
  - destruct (Hm _ _ _ Hw E1) as [Hw1 _]. exists a, w1. auto.
Qed.

Lemma total_try_except2 {A} (m : M A) c1 h1 h2 :
  tame m -> (forall e, total (h1 e)) -> (forall e, total (h2 e)) ->
  total (try_except2 m c1 h1 is_Exception h2).
Proof.
  intros Hm H1 H2 w Hw. unfold try_except2.
  destruct (m w) as [[e|a] w1] eqn:E1.
  - destruct (Hm _ _ _ Hw E1) as [Hw1 He]. rewrite (He e eq_refl).
    destruct (c1 e); [exact (H1 e w1 Hw1) | exact (H2 e w1 Hw1)].
  - destruct (Hm _ _ _ Hw E1) as [Hw1 _]. exists a, w1. auto.
Qed.

Ltac total_prim :=
  let w := fresh "w" in let Hw := fresh "Hw" in
  intros w Hw; eexists; eexists; split; [reflexivity | exact Hw].

Lemma total_get : total get.
Proof. total_prim. Qed.

Lemma total_emit e : total (emit e).
Proof. total_prim. Qed.

Lemma total_next_tick : total next_tick.
Proof. total_prim. Qed.

Lemma total_next_sent : total next_sent.
Proof. total_prim. Qed.

Lemma total_advance us : total (advance us).
Proof. total_prim. Qed.

Lemma total_set_store st : total (set_store st).
Proof. total_prim. Qed.

Lemma total_log lvl msg : total (log lvl msg).
Proof.
  intros w Hw. rewrite run_log by apply Hw.
  eexists; eexists; split; [reflexivity | exact Hw].
Qed.

Create HintDb total.

#[local] Hint Resolve total_ret total_get total_emit total_next_tick total_next_sent
  total_advance total_set_store total_log : total.

Ltac total_step :=
  match goal with
  | |- total (bind _ _) => apply total_bind; [| intros ?]
  | |- total (if ?b then _ else _) => destruct b
  | |- total (match ?x with _ => _ end) => destruct x
  | |- total _ => solve [eauto with total]
  end.

Ltac total_auto := repeat total_step.

Lemma total_sleep us : total (sleep us).
Proof. unfold sleep. total_auto. Qed.

Lemma total_now : total now.
Proof. unfold now. total_auto. Qed.

Lemma total_choice {A} (d : A) xs : total (choice d xs).
Proof. unfold choice. total_auto. Qed.

Lemma total_dict_copy a : total (dict_copy a).
Proof. unfold dict_copy. total_auto. Qed.

Lemma total_dict_set a k v : total (dict_set a k v).
Proof. unfold dict_set. total_auto. Qed.

Lemma total_dict_read a : total (dict_read a).
Proof. unfold dict_read. total_auto. Qed.

#[local] Hint Resolve total_sleep total_now total_choice total_dict_copy total_dict_set
  total_dict_read : total.

Lemma total_get_random_proxy : total get_random_proxy.
Proof. unfold get_random_proxy. total_auto. Qed.

Lemma total_get_random_user_agent : total get_random_user_agent.
Proof. unfold get_random_user_agent. total_auto. Qed.

Lemma total_uniform_2_5 : total uniform_2_5.
Proof. unfold uniform_2_5. total_auto. Qed.

#[local] Hint Resolve total_get_random_proxy total_get_random_user_agent
  total_uniform_2_5 : total.

Lemma tame_answer : tame answer.
Proof.
  intros w r w' Hw E. unfold answer in E.
  cbv beta iota delta [bind next_sent get ret raise] in E. cbn in E.
  destruct (net w (sent w)) as [resp|e] eqn:En; inversion E; subst; clear E.
  - split; [exact Hw | discriminate].
  - split; [exact Hw | intros ? [= <-]; exact (proj2 Hw _ _ En)].
Qed.

Lemma tame_lift {A} (r : exn + A) :
  (forall e, r = inl e -> is_Exception e = true) -> tame (lift r).
Proof.
  intros Hr. destruct r as [e|a]; cbn.
  - apply tame_raise. now apply Hr.
  - apply total_tame, total_ret.
Qed.

Create HintDb tame.

#[local] Hint Resolve tame_answer : tame.
#[local] Hint Extern 5 (tame _) => (apply total_tame; solve [eauto with total]) : tame.

Ltac tame_step :=
  match goal with
  | |- tame (bind _ _) => apply tame_bind; [| intros ?]
  | |- tame (try_except _ _ _) => apply tame_try_except; [| intros ?]
  | |- tame (raise _) => apply tame_raise; reflexivity
  | |- tame (if ?b then _ else _) => destruct b
  | |- tame (match ?x with _ => _ end) => destruct x
  | |- tame _ => solve [eauto with tame]
  end.

Ltac tame_auto := repeat tame_step.

Lemma tame_config_headers : tame config_headers.
Proof. unfold config_headers. tame_auto. Qed.

Lemma tame_config_api_url : tame config_api_url.
Proof. unfold config_api_url. tame_auto. Qed.

Lemma tame_session_get url h proxy timeout : tame (session_get url h proxy timeout).
Proof. unfold session_get. tame_auto. Qed.

Lemma tame_session_post url h today proxy timeout :
  tame (session_post url h today proxy timeout).
Proof. unfold session_post. tame_auto. Qed.

#[local] Hint Resolve tame_config_headers tame_config_api_url tame_session_get
  tame_session_post : tame.

Lemma tame_test_token_body account : tame (test_token_body account).
Proof. unfold test_token_body. tame_auto. Qed.

Lemma total_test_token_with_api account : total (test_token_with_api account).
Proof.
  unfold test_token_with_api. apply total_try_except.
  - apply tame_test_token_body.
  - intros e. total_auto.
Qed.

Lemma tame_scan_phrases text : forall phrases, tame (scan_phrases phrases text).
Proof. induction phrases as [|p ps IH]; cbn [scan_phrases]; tame_auto. Qed.

Lemma tame_on_status_200 account response : tame (on_status_200 account response).
Proof.
  unfold on_status_200, response_json. pose proof (tame_scan_phrases) as Hs.
  tame_auto.
Qed.

Lemma tame_build_request account attempt : tame (build_request account attempt).
Proof. unfold build_request. tame_auto. Qed.

Lemma tame_attempt_body account attempt : tame (attempt_body account attempt).
Proof.
  unfold attempt_body, classify.
  pose proof (tame_build_request account attempt).
  pose proof (tame_on_status_200 account).
  tame_auto.
Qed.

Lemma total_attempt_once account rt rd attempt :
  total (attempt_once account rt rd attempt).
Proof.
  unfold attempt_once. apply total_try_except2.
  - pose proof (tame_attempt_body account attempt). tame_auto.
  - intros e. total_auto.
  - intros e. total_auto.
Qed.

Lemma total_attempts account rt rd : forall remaining attempt,
  total (attempts account rt rd remaining attempt).
Proof.
  induction remaining as [|n IH]; intros attempt; cbn [attempts].
  - total_auto.
  - apply total_bind; [apply total_attempt_once | intros [b|]]; [total_auto | apply IH].
Qed.

Lemma b64_loop_error : forall s st e, Base64.loop st s = inl e -> e = BinasciiError.
Proof.
  induction s as [|c s IH]; intros st e; cbn [Base64.loop].
  - destruct (Base64.quad_pos st =? 0); [discriminate | now intros [= <-]].
  - destruct (Base64.step st c) as [done|st']; [discriminate | apply IH].
Qed.

Lemma b64decode_error s e : Base64.b64decode s = inl e -> is_Exception e = true.
Proof.
  unfold Base64.b64decode, Base64.a2b_base64.
  destruct (forallb Base64.is_ascii _).
  - intros H. apply b64_loop_error in H. now subst.
  - now intros [= <-].
Qed.

Lemma contains_key_error k v e : PyObj.contains_key k v = inl e -> is_Exception e = true.
Proof. destruct v; cbn; intros [= <-]; reflexivity. Qed.

Lemma getitem_error v k e : PyObj.getitem v k = inl e -> is_Exception e = true.
Proof.
  destruct v; cbn; try (intros [= <-]; reflexivity).
  destruct (PyObj.lookup k entries); [discriminate | intros [= <-]; reflexivity].
Qed.

Lemma fromtimestamp_error x e : PyTime.fromtimestamp x = inl e -> is_Exception e = true.
Proof.
  destruct x; cbn; try (intros [= <-]; reflexivity); try discriminate;
    destruct (PyTime.in_range _); try discriminate; intros [= <-]; reflexivity.
Qed.

(** *** The decoder instance raises only decoding errors *)

Ltac crack :=
  repeat match goal with
         | |- context [if ?b then _ else _] => destruct b
         | |- context [match ?x with _ => _ end] => destruct x eqn:?
         end.

Lemma scanstring_error : forall fuel s acc e,
  Json.scanstring fuel s acc = inl e -> e = JSONDecodeError.
Proof.
  induction fuel as [|fuel IH]; intros s acc e; cbn [Json.scanstring].
  - now intros [= <-].
  - crack; try discriminate; try (now intros [= <-]); try apply IH.
Qed.

Lemma value_error : forall fuel,
  (forall s e, Json.value fuel s = inl e -> e = JSONDecodeError)
  /\ (forall s acc e, Json.members fuel s acc = inl e -> e = JSONDecodeError)
  /\ (forall s acc e, Json.elements fuel s acc = inl e -> e = JSONDecodeError).
Proof.
  induction fuel as [|fuel (IHv & IHm & IHe)].
  - repeat split; intros; cbn in *; congruence.
  - split; [|split].
    + intros s e. cbn [Json.value]. unfold Json.word, Json.number.
      crack; try discriminate; try (now intros [= <-]);
        try apply IHm; try apply IHe;
        try (intros [= <-]; eapply scanstring_error; eassumption).
    + intros s acc e. cbn [Json.members].
      crack; try discriminate; try (now intros [= <-]); try apply IHm;
        try (intros [= <-]; first [eapply scanstring_error; eassumption
                                  | eapply IHv; eassumption]).
    + intros s acc e. cbn [Json.elements].
      crack; try discriminate; try (now intros [= <-]); try apply IHe;
        try (intros [= <-]; eapply IHv; eassumption).
Qed.

Lemma json_loads_error bs e : Json.loads bs = inl e -> is_Exception e = true.
Proof.
  unfold Json.loads.
  crack; try discriminate; try (now intros [= <-]);
    intros [= <-];
    match goal with
    | H : Json.value _ _ = inl _ |- _ => apply (proj1 (value_error _)) in H; now subst
    end.
Qed.

Section Validator_facts.

Variable loads : Base64.bytes -> exn + json.

Lemma good_inspect_payload n account payload :
  good n any (inspect_payload loads account payload).
Proof. unfold inspect_payload. good_auto. Qed.

Lemma good_check_token_body n account :
  good n any (check_token_body loads account).
Proof.
  unfold check_token_body.
  pose proof (good_test_token_with_api n account) as Ha.
  pose proof (good_inspect_payload n account) as Hi.
  good_auto.
Qed.

Lemma good_check_token_validity n account :
  good n any (check_token_validity loads account).
Proof.
  unfold check_token_validity. pose proof (good_check_token_body n account).
  good_auto.
Qed.

Lemma good_sign_in n account : good n any (sign_in loads account).
Proof.
  unfold sign_in, config_get.
  pose proof (good_check_token_validity n account) as Hc.
  pose proof (good_attempts n account) as Ha.
  good_auto.
Qed.

Lemma good_sign_in_each n : forall todo count, good n any (sign_in_each loads todo count).
Proof.
  induction todo as [|a rest IH]; intros count; cbn [sign_in_each].
  - good_auto.
  - pose proof (good_sign_in n a) as Hs. unfold uniform_2_5. good_auto.
Qed.

Lemma good_sign_in_all_accounts n : good n any (sign_in_all_accounts loads).
Proof.
  unfold sign_in_all_accounts. pose proof (good_sign_in_each n) as He.
  good_auto.
Qed.

Lemma good_unchanged {A} (m : M A) w :
  good (List.length (store w)) any m -> unchanged w (snd (m w)).
Proof.
  intros Hm. destruct (m w) as [r w'] eqn:E.
  destruct (Hm w r w' (le_n _) E) as [[] _]. cbn.
  repeat split; try assumption.
  now rewrite frame_store0, firstn_all.
Qed.

Lemma check_body_shaped account :
  is_placeholder (session_token account) = false ->
  2 <= PyStr.count "." (session_token account) ->
  check_token_body loads account
  = try_except
      (inspect_payload loads account
         (pad (nth 1 (PyStr.split "." (session_token account)) "")))
      is_decode_error (fun _ => test_token_with_api account).
Proof.
  intros Hp Hc. unfold check_token_body. rewrite Hp.
  rewrite count_pos_contains by lia.
  replace (2 <=? PyStr.count "." (session_token account)) with true
    by (symmetry; apply Z.leb_le; exact Hc).
  cbn [andb].
  replace (2 <=? Z.of_nat (List.length (PyStr.split "." (session_token account))))
    with true by (symmetry; apply Z.leb_le; rewrite length_split; lia).
  reflexivity.
Qed.

Lemma check_body_unshaped account :
  is_placeholder (session_token account) = false ->
  PyStr.count "." (session_token account) < 2 ->
  check_token_body loads account = test_token_with_api account.
Proof.
  intros Hp Hc. unfold check_token_body. rewrite Hp.
  replace (2 <=? PyStr.count "." (session_token account)) with false
    by (symmetry; apply Z.leb_gt; exact Hc).
  now rewrite andb_false_r.
Qed.

(** With the logger in place the probe lets no [Exception] out, so the
    outer [try] of the validator is transparent around it. *)
Lemma check_of_probe account w :
  has_logger w = true ->
  check_token_body loads account w = test_token_with_api account w ->
  check_token_validity loads account w = test_token_with_api account w.
Proof.
  intros Hl Hb. unfold check_token_validity.
  rewrite try_except_skip; [exact Hb|].
  intros e w' H. rewrite Hb in H. eapply test_api_fail_open; eassumption.
Qed.

(** *** The payload inspection, case by case *)

Lemma inspect_undecodable account payload w e :
  Base64.b64decode payload = inl e ->
  inspect_payload loads account payload w = (inl e, w).
Proof. intros H. unfold inspect_payload, bind. now rewrite H. Qed.

Lemma inspect_unparsable account payload w bs e :
  Base64.b64decode payload = inr bs -> loads bs = inl e ->
  inspect_payload loads account payload w = (inl e, w).
Proof. intros H1 H2. unfold inspect_payload, bind. rewrite H1. cbn. now rewrite H2. Qed.

Lemma inspect_bad_exp account payload w bs entries x e :
  Base64.b64decode payload = inr bs -> loads bs = inr (JDict entries) ->
  PyObj.lookup "exp" entries = Some x ->
  PyTime.fromtimestamp x = inl e ->
  inspect_payload loads account payload w = (inl e, w).
Proof.
  intros H1 H2 H3 H4. unfold inspect_payload, bind. rewrite H1. cbn. rewrite H2. cbn.
  rewrite H3. cbn. now rewrite H4.
Qed.

Lemma inspect_exp account payload w bs entries x us :
  has_logger w = true ->
  Base64.b64decode payload = inr bs -> loads bs = inr (JDict entries) ->
  PyObj.lookup "exp" entries = Some x ->
  PyTime.fromtimestamp x = inr us ->
  inspect_payload loads account payload w
  = if us <=? clock w + PyTime.minutes 30 then
      (inr (Some false),
       observed w [Log WARNING ("Account " ++ name account
                                ++ " token will expire within 30 minutes")])
    else
      (inr (Some true),
       observed w [Log INFO ("Account " ++ name account ++ " token valid, remaining: "
                             ++ PyTime.format_1f (PyTime.hours_of (us - clock w))
                             ++ " hours")]).
Proof.
  intros Hl H1 H2 H3 H4. unfold inspect_payload, bind at 1. rewrite H1. cbn [lift ret].
  unfold bind at 1. rewrite H2. cbn [lift ret].
  unfold bind at 1. cbn [PyObj.contains_key]. rewrite H3. cbn [lift ret].
  unfold bind at 1. cbn [PyObj.getitem]. rewrite H3. cbn [lift ret].
  unfold bind at 1. rewrite H4. cbn [lift ret].
  unfold bind at 1, now, bind at 1, get, ret.
  destruct (us <=? clock w + PyTime.minutes 30);
    unfold bind; rewrite run_log by exact Hl; reflexivity.
Qed.

Lemma fromtimestamp_error_class x e :
  PyTime.fromtimestamp x = inl e -> is_decode_error e = false /\ is_Exception e = true.
Proof.
  destruct x; cbn; try (intros [= <-]; split; reflexivity).
  - destruct (PyTime.in_range _); intros [= <-]; split; reflexivity.
  - destruct (PyTime.in_range _); intros [= <-]; split; reflexivity.
Qed.

(** *** The validator on a three-segment token *)

Lemma segments_count tok :
  3 <= Z.of_nat (List.length (segments tok)) <-> 2 <= PyStr.count "." tok.
Proof. unfold segments. rewrite length_split. lia. Qed.

Lemma check_shaped_exp account w x us :
  has_logger w = true ->
  is_placeholder (session_token account) = false ->
  carries_exp loads (session_token account) x ->
  PyTime.fromtimestamp x = inr us ->
  check_token_validity loads account w
  = if us <=? clock w + PyTime.minutes 30 then
      (inr (Some false),
       observed w [Log WARNING ("Account " ++ name account
                                ++ " token will expire within 30 minutes")])
    else
      (inr (Some true),
       observed w [Log INFO ("Account " ++ name account ++ " token valid, remaining: "
                             ++ PyTime.format_1f (PyTime.hours_of (us - clock w))
                             ++ " hours")]).
Proof.
  intros Hl Hp (Hs & bs & entries & Hd & Hj & Hx) Ht.
  apply segments_count in Hs. unfold middle, segments in Hd.
  unfold check_token_validity. rewrite (check_body_shaped account Hp Hs).
  unfold try_except.
  rewrite (inspect_exp account _ w bs entries x us Hl Hd Hj Hx Ht).
  destruct (us <=? clock w + PyTime.minutes 30); reflexivity.
Qed.

Lemma check_shaped_bad_exp account w x e :
  has_logger w = true ->
  is_placeholder (session_token account) = false ->
  carries_exp loads (session_token account) x ->
  PyTime.fromtimestamp x = inl e ->
  check_token_validity loads account w
  = (inr (Some true),
     observed w [Log ERROR ("Error checking token of " ++ name account ++ ": "
                            ++ exn_text e)]).
Proof.
  intros Hl Hp (Hs & bs & entries & Hd & Hj & Hx) Ht.
  apply segments_count in Hs. unfold middle, segments in Hd.
  destruct (fromtimestamp_error_class x e Ht) as [Hde Hex].
  unfold check_token_validity. rewrite (check_body_shaped account Hp Hs).
  unfold try_except.
  rewrite (inspect_bad_exp account _ w bs entries x e Hd Hj Hx Ht).
  rewrite Hde, Hex. unfold bind. rewrite run_log by exact Hl. reflexivity.
Qed.

Lemma check_undecodable account w :
  has_logger w = true ->
  is_placeholder (session_token account) = false ->
  Z.of_nat (List.length (segments (session_token account))) < 3
  \/ Base64.b64decode (pad (middle (session_token account))) = inl BinasciiError
  \/ (exists bs, Base64.b64decode (pad (middle (session_token account))) = inr bs
                 /\ loads bs = inl JSONDecodeError) ->
  check_token_validity loads account w = test_token_with_api account w.
Proof.
  intros Hl Hp H. apply check_of_probe; [exact Hl|].
  destruct (Z.lt_ge_cases (PyStr.count "." (session_token account)) 2) as [Hc|Hc].
  - now rewrite check_body_unshaped.
  - destruct H as [H | [H | (bs & H1 & H2)]].
    + apply Z.lt_nge in H. rewrite segments_count in H. contradiction.
    + rewrite (check_body_shaped account Hp Hc). unfold try_except.
      unfold middle, segments in H.
      now rewrite (inspect_undecodable account _ w _ H).
    + rewrite (check_body_shaped account Hp Hc). unfold try_except.
      unfold middle, segments in H1.
      now rewrite (inspect_unparsable account _ w bs _ H1 H2).
Qed.

Lemma check_fails_open account w e w1 :
  has_logger w = true -> is_Exception e = true ->
  check_token_body loads account w = (inl e, w1) ->
  check_token_validity loads account w
  = (inr (Some true),
     observed w1 [Log ERROR ("Error checking token of " ++ name account ++ ": "
                             ++ exn_text e)]).
Proof.
  intros Hl He Hb. unfold check_token_validity.
  apply (try_except_logs (check_token_body loads account) is_Exception ERROR
           (fun e => "Error checking token of " ++ name account ++ ": " ++ exn_text e));
    auto using good_check_token_body.
Qed.

(** *** [sign_in] around the validator *)

Lemma sign_in_skips account w v w1 :
  has_logger w = true ->
  check_token_validity loads account w = (inr v, w1) -> truthy v = false ->
  sign_in loads account w
  = (inr false,
     observed w1 [Log ERROR ("Account " ++ name account
                             ++ " token invalid or expiring soon, skipping")]).
Proof.
  intros Hl Hc Hv. unfold sign_in. unfold bind at 1. rewrite Hc, Hv. cbn [negb].
  destruct (good_check_token_validity O account w _ _ (Nat.le_0_l _) Hc) as [F _].
  unfold bind. rewrite run_log by (destruct F; congruence). reflexivity.
Qed.

Lemma sign_in_attempts account w v w1 :
  check_token_validity loads account w = (inr v, w1) -> truthy v = true ->
  sign_in loads account w
  = attempts account (retry_times_of (config w)) (retry_delay_of (config w))
             (Z.to_nat (retry_times_of (config w))) 0 w1.
Proof.
  intros Hc Hv. unfold sign_in. unfold bind at 1. rewrite Hc, Hv. cbn [negb].
  destruct (good_check_token_validity O account w _ _ (Nat.le_0_l _) Hc) as [F _].
  unfold config_get, retry_times_of, retry_delay_of, or_default.
  cbv beta iota delta [bind get ret].
  replace (config w1) with (config w) by (destruct F; congruence). reflexivity.
Qed.

(** *** The validator and [sign_in] return *)

Hypothesis loads_raises_exceptions :
  forall bs e, loads bs = inl e -> is_Exception e = true.

Lemma tame_inspect_payload account payload : tame (inspect_payload loads account payload).
Proof.
  unfold inspect_payload.
  apply tame_bind; [apply tame_lift, b64decode_error | intros decoded].
  apply tame_bind; [apply tame_lift, loads_raises_exceptions | intros token_data].
  apply tame_bind; [apply tame_lift, contains_key_error | intros [|]].
  - apply tame_bind; [apply tame_lift, getitem_error | intros x].
    apply tame_bind; [apply tame_lift, fromtimestamp_error | intros us].
    tame_auto.
  - tame_auto.
Qed.

Lemma tame_check_token_body account : tame (check_token_body loads account).
Proof.
  unfold check_token_body.
  pose proof (tame_inspect_payload account).
  pose proof (total_tame _ (total_test_token_with_api account)).
  tame_auto.
Qed.

Lemma total_check_token_validity account : total (check_token_validity loads account).
Proof.
  unfold check_token_validity. apply total_try_except.
  - apply tame_check_token_body.
  - intros e. total_auto.
Qed.

Lemma total_sign_in account : total (sign_in loads account).
Proof.
  unfold sign_in, config_get.
  pose proof (total_check_token_validity account).
  pose proof (total_attempts account).
  total_auto.
Qed.

Lemma total_sign_in_each : forall todo count, total (sign_in_each loads todo count).
Proof.
  induction todo as [|a rest IH]; intros count; cbn [sign_in_each].
  - total_auto.
  - pose proof (total_sign_in a). total_auto.
Qed.

Lemma visits_length todo w oks w' :
  visits loads todo w oks w' -> List.length oks = List.length todo.
Proof. induction 1; cbn; congruence. Qed.

Lemma run_sign_in_each : forall todo count w,
  calm w ->
  exists oks w',
    visits loads todo w oks w'
    /\ sign_in_each loads todo count w = (inr (count + successes oks), w')
    /\ calm w'.
Proof.
  induction todo as [|a rest IH]; intros count w Hw.
  - exists [], w. cbn. unfold successes. cbn.
    split; [constructor | split; [now rewrite Z.add_0_r | exact Hw]].
  - destruct (total_sign_in a w Hw) as (ok & w1 & Hs & Hw1).
    destruct (total_uniform_2_5 w1 Hw1) as (pause & w2 & Hu & Hw2).
    assert (Hw2' : calm (slept w2 pause)) by exact Hw2.
    destruct (IH (if ok then count + 1 else count) _ Hw2') as (oks & w3 & Hv & He & Hw3).
    exists (ok :: oks), w3.
    split; [econstructor; eassumption|].
    split; [|exact Hw3].
    cbn [sign_in_each]. unfold bind at 1. rewrite Hs.
    unfold bind at 1. rewrite Hu. unfold bind at 1. rewrite run_sleep.
    rewrite He. f_equal. f_equal. unfold successes.
    destruct ok; cbn [filter List.length]; lia.
Qed.

Lemma check_placeholder account w :
  has_logger w = true ->
  is_placeholder (session_token account) = true ->
  check_token_validity loads account w =
  (inr (Some false),
   observed w [Log WARNING ("Account " ++ name account
                            ++ ": token is placeholder, please update real session_token")]).
Proof.
  intros Hl Hp. unfold check_token_validity, check_token_body, try_except.
  rewrite Hp. cbv beta iota delta [bind log get emit ret].
  rewrite Hl. reflexivity.
Qed.

End Validator_facts.

(** ** The claims *)

(** C3. A placeholder-shaped token (empty, starting with "your", or
    containing "session_token" in any casing) makes [check_token_validity]
    return [False] after one warning, and [sign_in] return [False] after
    that warning and one error line: no request is sent, neither the
    validation probe nor the check-in. *)
Theorem placeholder_token_rejected_offline loads account w :
  has_logger w = true ->
  placeholder_shaped (session_token account) ->
  let warning := Log WARNING ("Account " ++ name account
                   ++ ": token is placeholder, please update real session_token") in
  let skipping := Log ERROR ("Account " ++ name account
                   ++ " token invalid or expiring soon, skipping") in
  check_token_validity loads account w = (inr (Some false), observed w [warning])
  /\ sign_in loads account w = (inr false, observed w [warning; skipping])
  /\ network_calls (trace (snd (sign_in loads account w))) = network_calls (trace w)
  /\ sent (snd (sign_in loads account w)) = sent w.
Proof.
  intros Hl Hp warning skipping. apply placeholder_shaped_iff in Hp.
  pose proof (check_placeholder loads account w Hl Hp) as Hc.
  assert (Hs : sign_in loads account w = (inr false, observed w [warning; skipping])).
  { unfold sign_in, bind at 1. rewrite Hc. cbn [truthy negb].
    unfold bind. rewrite run_log by exact Hl. cbn [ret].
    now rewrite observed_observed. }
  repeat split; [exact Hc | exact Hs | |]; rewrite Hs; cbn.
  - rewrite network_calls_app. cbn. now rewrite app_nil_r.
  - reflexivity.
Qed.

Lemma placeholder_token_rejected_offline_witness :
  let account := mkAccount "alice" "your_session_token_here" "" "" in
  let w := demo_world [account] (fun _ => Responds ok_response) in
  has_logger w = true /\ placeholder_shaped (session_token account)
  /\ fst (sign_in Json.loads account w) = inr false
  /\ sent (snd (sign_in Json.loads account w)) = O.
Proof.
  intros account w.
  assert (Hl : has_logger w = true) by reflexivity.
  assert (Hp : placeholder_shaped (session_token account)) by (right; left; reflexivity).
  destruct (placeholder_token_rejected_offline Json.loads account w Hl Hp)
    as (_ & Hs & _ & Hn).
  split; [exact Hl | split; [exact Hp | split; [now rewrite Hs | exact Hn]]].
Defined.

(** C9. Accounts and proxies are read-only after load: whatever
    [check_token_validity], [test_token_with_api], [sign_in] and
    [sign_in_all_accounts] return or raise, the account list, the proxy
    list, the configuration and every dictionary that existed before the
    call (the configured headers included) are what they were; the headers
    sent are written into copies. *)
Theorem accounts_and_proxies_read_only loads account w :
  unchanged w (snd (check_token_validity loads account w))
  /\ unchanged w (snd (test_token_with_api account w))
  /\ unchanged w (snd (sign_in loads account w))
  /\ unchanged w (snd (sign_in_all_accounts loads w)).
Proof.
  split; [|split; [|split]]; apply good_unchanged.
  - apply good_check_token_validity.
  - apply good_test_token_with_api.
  - apply good_sign_in.
  - apply good_sign_in_all_accounts.
Qed.

(** C7. With the main configuration file absent or not parseable, the
    constructor reaches [self.logger.error] before [setup_logging] has
    run: it raises [AttributeError], no line is logged or printed and
    [sys.exit] is not reached.  The process still ends, on the uncaught
    exception. *)
Theorem config_error_raises_before_logging accts prox clock0 net0 rnd0 ua0 :
  init (mkFiles Missing accts prox) (blank clock0 net0 rnd0 ua0)
  = (inl (AttributeError "logger"), blank clock0 net0 rnd0 ua0)
  /\ init (mkFiles Malformed accts prox) (blank clock0 net0 rnd0 ua0)
     = (inl (AttributeError "logger"), blank clock0 net0 rnd0 ua0).
Proof. split; reflexivity. Qed.

(** The other two files degrade as the specification says: an absent or
    unparseable accounts file and an absent proxy file leave an empty list
    behind one printed line, and the constructor completes. *)
Lemma accounts_and_proxy_files_degrade raw clock0 net0 rnd0 ua0 :
  let w0 := blank clock0 net0 rnd0 ua0 in
  (forall bad, bad = Missing \/ bad = Malformed ->
     exists line w,
       init (mkFiles (Content raw) bad (Content [])) w0 = (inr tt, w)
       /\ accounts w = [] /\ has_logger w = true /\ trace w = [Print line])
  /\ (exists w,
        init (mkFiles (Content raw) (Content []) Missing) w0 = (inr tt, w)
        /\ proxies w = [] /\ has_logger w = true
        /\ trace w = [Print "Warning: proxy.txt file does not exist"]).
Proof.
  intros w0. split.
  - intros bad [-> | ->]; destruct raw as [rt rd [h|] u];
      (eexists; eexists; split; [reflexivity | cbn; auto]).
  - destruct raw as [rt rd [h|] u];
      (eexists; split; [reflexivity | cbn; auto]).
Qed.

(** C5. Validation fails open.  For a token that is not a placeholder:
    when it has fewer than three segments, or its middle segment is not
    base64, or the decoded bytes are not JSON, the verdict is that of
    [test_token_with_api]; the probe answers [True] exactly on status 200,
    and [True] on any exception raised by the request; and whatever
    [Exception] escapes the body of [check_token_validity] is turned into
    [True] after one error line. *)
Theorem validation_fails_open loads account w :
  has_logger w = true ->
  ~ placeholder_shaped (session_token account) ->
  ((Z.of_nat (List.length (segments (session_token account))) < 3
    \/ Base64.b64decode (pad (middle (session_token account))) = inl BinasciiError
    \/ (exists bs, Base64.b64decode (pad (middle (session_token account))) = inr bs
                   /\ loads bs = inl JSONDecodeError)) ->
   check_token_validity loads account w = test_token_with_api account w)
  /\ (forall h r, cfg_headers (config w) = Some h -> net w (sent w) = Responds r ->
       fst (test_token_with_api account w) = inr (Some (status_code r =? 200)))
  /\ (forall e, is_Exception e = true -> net w (sent w) = Raises e ->
       fst (test_token_with_api account w) = inr (Some true))
  /\ (forall e w1, is_Exception e = true ->
       check_token_body loads account w = (inl e, w1) ->
       check_token_validity loads account w
       = (inr (Some true),
          observed w1 [Log ERROR ("Error checking token of " ++ name account ++ ": "
                                  ++ exn_text e)])).
Proof.
  intros Hl Hp. apply not_placeholder in Hp.
  split; [|split; [|split]].
  - intros H. now apply check_undecodable.
  - intros h r. now apply test_api_responds.
  - intros e. now apply test_api_raises.
  - intros e w1. now apply check_fails_open.
Qed.

Lemma validation_fails_open_witness :
  let account := mkAccount "carol" "opaque-session-value" "" "" in
  let w := demo_world [account] (fun _ => Raises RequestException) in
  has_logger w = true /\ ~ placeholder_shaped (session_token account)
  /\ fst (check_token_validity Json.loads account w) = inr (Some true).
Proof.
  intros account w.
  assert (Hl : has_logger w = true) by reflexivity.
  assert (Hp : ~ placeholder_shaped (session_token account)).
  { intros H. apply placeholder_shaped_iff in H. discriminate H. }
  destruct (validation_fails_open Json.loads account w Hl Hp) as (Hprobe & _ & Hraise & _).
  split; [exact Hl | split; [exact Hp|]].
  rewrite Hprobe by (left; now vm_compute).
  apply (Hraise RequestException); reflexivity.
Defined.
















(** * Further properties of the methods *)

(** ** The validator *)

Section Validator_more.

Variable loads : Base64.bytes -> exn + json.

Lemma inspect_no_exp account payload w bs entries :
  has_logger w = true ->
  Base64.b64decode payload = inr bs -> loads bs = inr (JDict entries) ->
  PyObj.lookup "exp" entries = None ->
  inspect_payload loads account payload w
  = (inr (Some true),
     observed w [Log INFO ("Account " ++ name account
                           ++ " token valid but no expiry info")]).
Proof.
  intros Hl H1 H2 H3. unfold inspect_payload. unfold bind at 1. rewrite H1. cbn [lift ret].
  unfold bind at 1. rewrite H2. cbn [lift ret].
  unfold bind at 1. cbn [PyObj.contains_key]. rewrite H3. cbn [lift ret].
  unfold bind. rewrite run_log by exact Hl. reflexivity.
Qed.

Lemma good_bool_test_token_with_api n account :
  good n is_bool (test_token_with_api account).
Proof.
  unfold test_token_with_api.
  apply good_try_except.
  - unfold test_token_body.
    eapply (good_bind _ any); [good_auto | intros h0 _].
    eapply good_bind; [apply good_dict_copy | intros h Hh; cbn beta in Hh].
    eapply (good_bind _ any); [good_auto | intros ua _].
    eapply (good_bind _ any); [now apply good_dict_set | intros _ _].
    eapply (good_bind _ any); [now apply good_dict_set | intros _ _].
    eapply (good_bind _ any); [good_auto | intros proxy _].
    eapply (good_bind _ any); [good_auto | intros response _].
    destruct (status_code response =? 200);
      (eapply (good_bind _ any); [good_auto | intros _ _; apply good_ret; discriminate]).
  - intros e. eapply (good_bind _ any); [good_auto | intros _ _; apply good_ret; discriminate].
Qed.

Lemma good_bool_inspect_payload n account payload :
  good n is_bool (inspect_payload loads account payload).
Proof.
  unfold inspect_payload.
  eapply (good_bind _ any); [good_auto | intros decoded _].
  eapply (good_bind _ any); [good_auto | intros token_data _].
  eapply (good_bind _ any); [good_auto | intros [|] _].
  - eapply (good_bind _ any); [good_auto | intros x _].
    eapply (good_bind _ any); [good_auto | intros us _].
    eapply (good_bind _ any); [good_auto | intros t _].
    destruct (us <=? t + PyTime.minutes 30);
      (eapply (good_bind _ any); [good_auto | intros _ _; apply good_ret; discriminate]).
  - eapply (good_bind _ any); [good_auto | intros _ _; apply good_ret; discriminate].
Qed.

Lemma good_bool_check_token_validity n account :
  good n is_bool (check_token_validity loads account).
Proof.
  unfold check_token_validity. apply good_try_except.
  - unfold check_token_body.
    destruct (is_placeholder (session_token account)).
    + eapply (good_bind _ any); [good_auto | intros _ _; apply good_ret; discriminate].
    + destruct (PyStr.contains "." (session_token account)
                && (2 <=? PyStr.count "." (session_token account))) eqn:E.
      * apply andb_true_iff in E as [_ E]. apply Z.leb_le in E.
        replace (2 <=? Z.of_nat (List.length (PyStr.split "." (session_token account))))
          with true by (symmetry; apply Z.leb_le; rewrite length_split; lia).
        apply good_try_except; [apply good_bool_inspect_payload|].
        intros _. apply good_bool_test_token_with_api.
      * apply good_bool_test_token_with_api.
  - intros e. eapply (good_bind _ any); [good_auto | intros _ _; apply good_ret; discriminate].
Qed.

End Validator_more.

(** X1. A three-segment token that is not a placeholder and whose middle
    segment decodes to a JSON object without [exp] is accepted on the
    spot: one info line, no request. *)
Theorem token_without_expiry_accepted loads account w bs entries :
  has_logger w = true ->
  ~ placeholder_shaped (session_token account) ->
  3 <= Z.of_nat (List.length (segments (session_token account))) ->
  Base64.b64decode (pad (middle (session_token account))) = inr bs ->
  loads bs = inr (JDict entries) ->
  PyObj.lookup "exp" entries = None ->
  check_token_validity loads account w
  = (inr (Some true),
     observed w [Log INFO ("Account " ++ name account
                           ++ " token valid but no expiry info")]).
Proof.
  intros Hl Hp Hs Hd Hj Hx. apply not_placeholder in Hp.
  apply segments_count in Hs. unfold middle, segments in Hd.
  unfold check_token_validity. rewrite (check_body_shaped loads account Hp Hs).
  unfold try_except.
  now rewrite (inspect_no_exp loads account _ w bs entries Hl Hd Hj Hx).
Qed.

Lemma token_without_expiry_accepted_witness :
  let account := mkAccount "kim" "hdr.eyJzdWIiOiJ4In0.sig" "" "" in
  let w := demo_world [account] (fun _ => Raises RequestException) in
  has_logger w = true /\ ~ placeholder_shaped (session_token account)
  /\ check_token_validity Json.loads account w
     = (inr (Some true),
        observed w [Log INFO "Account kim token valid but no expiry info"]).
Proof.
  intros account w.
  assert (Hl : has_logger w = true) by reflexivity.
  assert (Hp : ~ placeholder_shaped (session_token account)).
  { intros H. apply placeholder_shaped_iff in H. discriminate H. }
  split; [exact Hl | split; [exact Hp|]].
  refine (token_without_expiry_accepted Json.loads account w
            (match Base64.b64decode "eyJzdWIiOiJ4In0=" with inr b => b | inl _ => [] end)
            [("sub", JStr "x")] Hl Hp _ _ _ _).
  - now vm_compute.
  - vm_compute. reflexivity.
  - vm_compute. reflexivity.
  - reflexivity.
Defined.

(** X2. In a world with a logger and no interrupt from the network, and a
    decoder that raises nothing but [Exception]s, [check_token_validity]
    always returns one of the two booleans: no exception leaves it and the
    end of the function (a [None]) is never reached. *)
Theorem validator_returns_boolean loads account w :
  (forall bs e, loads bs = inl e -> is_Exception e = true) ->
  calm w ->
  exists b w',
    check_token_validity loads account w = (inr (Some b), w') /\ calm w'.
Proof.
  intros Hloads Hw.
  destruct (total_check_token_validity loads Hloads account w Hw) as (v & w' & E & Hw').
  destruct (good_bool_check_token_validity loads O account w _ _ (Nat.le_0_l _) E)
    as [_ Hb].
  destruct v as [b|]; [|exfalso; exact (Hb None eq_refl eq_refl)].
  exists b, w'. split; assumption.
Qed.

Lemma validator_returns_boolean_witness :
  let account := mkAccount "lena" "a.b" "" "" in
  let w := demo_world [account] (fun _ => Raises RequestException) in
  calm w
  /\ exists b w', check_token_validity Json.loads account w = (inr (Some b), w') /\ calm w'.
Proof.
  intros account w.
  assert (Hw : calm w).
  { split; [reflexivity|]. intros i e H. now inversion H. }
  split; [exact Hw|].
  exact (validator_returns_boolean Json.loads account w json_loads_error Hw).
Defined.

(** ** [sign_in] at its edges *)

Lemma total_sign_in_all_accounts loads :
  (forall bs e, loads bs = inl e -> is_Exception e = true) ->
  total (sign_in_all_accounts loads).
Proof.
  intros Hloads. unfold sign_in_all_accounts.
  pose proof (total_sign_in_each loads Hloads) as He.
  total_auto.
Qed.



(** X4. A retry budget of zero or less makes [sign_in] fail without any
    request: the token passes validation, the loop body never runs. *)
Theorem no_budget_no_request loads account w v w1 :
  check_token_validity loads account w = (inr v, w1) -> truthy v = true ->
  retry_times_of (config w) <= 0 ->
  sign_in loads account w = (inr false, w1).
Proof.
  intros Hc Hv Hrt. rewrite (sign_in_attempts loads account w v w1 Hc Hv).
  replace (Z.to_nat (retry_times_of (config w))) with O by lia. reflexivity.
Qed.

Lemma no_budget_no_request_witness :
  let account := mkAccount "mona" "hdr.eyJzdWIiOiJ4In0.sig" "" "" in
  let w := mkWorld (mkConfig (Some 0) None (Some O) (Some "https://example.invalid/checkin"))
                   [account] [] true [[]] [] 1762214400000000 O O
                   (fun _ => Responds ok_response) (fun _ => O) (fun _ => None) in
  let w1 := snd (check_token_validity Json.loads account w) in
  check_token_validity Json.loads account w = (inr (Some true), w1)
  /\ retry_times_of (config w) <= 0
  /\ sign_in Json.loads account w = (inr false, w1)
  /\ sent w1 = O.
Proof.
  intros account w w1.
  assert (Hc : check_token_validity Json.loads account w = (inr (Some true), w1))
    by (vm_compute; reflexivity).
  assert (Hrt : retry_times_of (config w) <= 0) by now vm_compute.
  split; [exact Hc | split; [exact Hrt | split; [|reflexivity]]].
  exact (no_budget_no_request Json.loads account w (Some true) w1 Hc eq_refl Hrt).
Defined.

Lemma attempt_once_unknown account rt rd k w e w' :
  has_logger w = true ->
  attempt_body account k w = (inl e, w') ->
  e <> RequestException -> is_Exception e = true ->
  attempt_once account rt rd k w
  = (inr (Return false), observed w' [unknown_line account e]).
Proof.
  intros Hl Hb Hne He.
  destruct (good_attempt_body O account k w _ _ (Nat.le_0_l _) Hb) as [F _].
  assert (Hl' : has_logger w' = true) by (destruct F; congruence).
  unfold attempt_once, try_except2. unfold bind at 1. rewrite Hb.
  destruct e; try contradiction; cbn [is_Exception] in *; try discriminate;
    cbv beta iota delta [bind ret]; rewrite run_log by exact Hl'; reflexivity.
Qed.

(** Without the [headers] key the request is not even built; without the
    [api_url] key it is built and not sent. *)
Lemma build_request_missing_key account k w :
  has_logger w = true ->
  cfg_headers (config w) = None \/ cfg_api_url (config w) = None ->
  exists key w0 evs,
    build_request account k w = (inl (KeyError key), w0)
    /\ (key = "headers" \/ key = "api_url")
    /\ trace w0 = (trace w ++ evs)%list
    /\ forallb is_log evs = true /\ sent w0 = sent w.
Proof.
  intros Hl Hk. run_world w.
  destruct (cfg_headers cfg) as [h|] eqn:Hh.
  - destruct Hk as [Hk|Hu]; [discriminate|].
    run_request. rewrite Hh. cbv beta iota.
    destruct (ua tk) as [agent|]; cbv beta iota;
      destruct prox as [|p ps]; cbv beta iota;
      destruct (k =? 0); cbv beta iota; rewrite Hu; cbv beta iota.
    all: exists "api_url"; eexists; eexists; split; [reflexivity|]; cbn.
    all: split; [now right|].
    all: split; [try reflexivity; try (symmetry; apply app_nil_r) | ].
    all: split; reflexivity.
  - exists "headers". eexists. exists [].
    run_request. rewrite Hh. cbv beta iota.
    split; [reflexivity|]. cbn. rewrite app_nil_r. auto.
Qed.

(** X5. A configuration without [headers] or without [api_url] makes each
    validated [sign_in] fail on its first attempt with the "Unknown error"
    line for the missing key: nothing is sent and nothing is retried. *)
Theorem missing_config_key_fails_without_request loads account w v w1 :
  has_logger w = true ->
  check_token_validity loads account w = (inr v, w1) -> truthy v = true ->
  0 < retry_times_of (config w) ->
  cfg_headers (config w) = None \/ cfg_api_url (config w) = None ->
  exists key w2 evs,
    sign_in loads account w = (inr false, w2)
    /\ (key = "headers" \/ key = "api_url")
    /\ trace w2 = (trace w1 ++ evs ++ [unknown_line account (KeyError key)])%list
    /\ forallb is_log evs = true /\ sent w2 = sent w1.
Proof.
  intros Hl Hc Hv Hrt Hk.
  destruct (good_check_token_validity loads O account w _ _ (Nat.le_0_l _) Hc) as [F _].
  assert (Hl1 : has_logger w1 = true) by (destruct F; congruence).
  assert (Hk1 : cfg_headers (config w1) = None \/ cfg_api_url (config w1) = None)
    by (replace (config w1) with (config w) by (destruct F; congruence); exact Hk).
  destruct (build_request_missing_key account 0 w1 Hl1 Hk1)
    as (key & w0 & evs & Hb & Hkey & Ht & Hlogs & Hs).
  assert (Hbody : attempt_body account 0 w1 = (inl (KeyError key), w0))
    by (unfold attempt_body; unfold bind at 1; now rewrite Hb).
  rewrite (sign_in_attempts loads account w v w1 Hc Hv).
  destruct (Z.to_nat (retry_times_of (config w))) as [|n] eqn:En; [lia|].
  cbn [attempts]. unfold bind at 1.
  rewrite (attempt_once_unknown account _ _ 0 w1 _ w0 Hl1 Hbody) by (discriminate || reflexivity).
  exists key, (observed w0 [unknown_line account (KeyError key)]), evs.
  split; [reflexivity | split; [exact Hkey|]].
  split; [cbn; rewrite Ht; now rewrite app_assoc|].
  split; [exact Hlogs | exact Hs].
Qed.

Lemma missing_config_key_fails_without_request_witness :
  let account := mkAccount "nora" "hdr.eyJzdWIiOiJ4In0.sig" "" "" in
  let w := mkWorld (mkConfig None None None (Some "https://example.invalid/checkin"))
                   [account] [] true [] [] 1762214400000000 O O
                   (fun _ => Responds ok_response) (fun _ => O) (fun _ => None) in
  let w1 := snd (check_token_validity Json.loads account w) in
  has_logger w = true
  /\ check_token_validity Json.loads account w = (inr (Some true), w1)
  /\ exists key w2 evs,
       sign_in Json.loads account w = (inr false, w2)
       /\ (key = "headers" \/ key = "api_url")
       /\ trace w2 = (trace w1 ++ evs ++ [unknown_line account (KeyError key)])%list
       /\ forallb is_log evs = true /\ sent w2 = sent w1.
Proof.
  intros account w w1.
  assert (Hl : has_logger w = true) by reflexivity.
  assert (Hc : check_token_validity Json.loads account w = (inr (Some true), w1))
    by (vm_compute; reflexivity).
  split; [exact Hl | split; [exact Hc|]].
  apply (missing_config_key_fails_without_request Json.loads account w (Some true) w1
           Hl Hc eq_refl); [now vm_compute | left; reflexivity].
Defined.

(** X6. An exception from the request that is not a [RequestException]
    ends [sign_in] with failure after that one request: the "Unknown
    error" line, no pause, no retry. *)
Theorem unexpected_exception_not_retried loads account w v w1 h u e :
  has_logger w = true ->
  cfg_headers (config w) = Some h -> cfg_api_url (config w) = Some u ->
  check_token_validity loads account w = (inr v, w1) -> truthy v = true ->
  0 < retry_times_of (config w) ->
  net w (sent w1) = Raises e -> e <> RequestException -> is_Exception e = true ->
  exists w2 pre,
    sign_in loads account w = (inr false, w2)
    /\ trace w2 = (trace w1 ++ pre ++ [unknown_line account e])%list
    /\ List.length (filter is_post pre) = 1%nat /\ filter is_sleep pre = []
    /\ sent w2 = S (sent w1).
Proof.
  intros Hl Hh Hu Hc Hv Hrt Hn Hne He.
  destruct (good_check_token_validity loads O account w _ _ (Nat.le_0_l _) Hc) as [F _].
  assert (Hl1 : has_logger w1 = true) by (destruct F; congruence).
  assert (Hh1 : cfg_headers (config w1) = Some h) by (destruct F; congruence).
  assert (Hu1 : cfg_api_url (config w1) = Some u) by (destruct F; congruence).
  assert (Hn1 : net w1 (sent w1) = Raises e) by (destruct F; congruence).
  destruct (run_attempt_body account 0 w1 h u Hl1 Hh1 Hu1)
    as (w0 & pre & _ & Hs & Ht & Hp & Hz & Hb).
  rewrite Hn1 in Hb.
  rewrite (sign_in_attempts loads account w v w1 Hc Hv).
  destruct (Z.to_nat (retry_times_of (config w))) as [|n] eqn:En; [lia|].
  cbn [attempts]. unfold bind at 1.
  rewrite (attempt_once_unknown account _ _ 0 w1 e w0 Hl1 Hb Hne He).
  exists (observed w0 [unknown_line account e]), pre.
  split; [reflexivity|].
  split; [cbn; rewrite Ht; now rewrite app_assoc|].
  split; [exact Hp | split; [exact Hz | exact Hs]].
Qed.

Lemma unexpected_exception_not_retried_witness :
  let account := mkAccount "olga" "hdr.eyJzdWIiOiJ4In0.sig" "" "" in
  let w := demo_world [account] (fun _ => Raises RuntimeError) in
  let w1 := snd (check_token_validity Json.loads account w) in
  has_logger w = true
  /\ check_token_validity Json.loads account w = (inr (Some true), w1)
  /\ exists w2 pre,
       sign_in Json.loads account w = (inr false, w2)
       /\ trace w2 = (trace w1 ++ pre ++ [unknown_line account RuntimeError])%list
       /\ List.length (filter is_post pre) = 1%nat /\ filter is_sleep pre = []
       /\ sent w2 = S (sent w1).
Proof.
  intros account w w1.
  assert (Hl : has_logger w = true) by reflexivity.
  assert (Hc : check_token_validity Json.loads account w = (inr (Some true), w1))
    by (vm_compute; reflexivity).
  split; [exact Hl | split; [exact Hc|]].
  apply (unexpected_exception_not_retried Json.loads account w (Some true) w1 O
           "https://app.piggycell.io/api/trpc/checkin" RuntimeError
           Hl eq_refl eq_refl Hc eq_refl);
    [now vm_compute | reflexivity | discriminate | reflexivity].
Defined.

(** ** Random choices *)

(** X7. [get_random_proxy] answers [None] exactly when the pool is empty
    and otherwise a proxy of the pool; it logs and sends nothing. *)
Theorem proxy_is_from_pool w :
  trace (snd (get_random_proxy w)) = trace w
  /\ sent (snd (get_random_proxy w)) = sent w
  /\ match fst (get_random_proxy w) with
     | inr None => proxies w = []
     | inr (Some proxy_url) => In proxy_url (proxies w)
     | inl _ => False
     end.
Proof.
  destruct w as [cfg accts prox hl st tr clk tk sn nt rn ua].
  unfold get_random_proxy, choice.
  cbv beta iota delta [bind get ret next_tick
    config accounts proxies has_logger store trace clock tick sent net rnd ua_random].
  destruct prox as [|p ps]; cbv beta iota; cbn [fst snd trace sent].
  - auto.
  - split; [reflexivity | split; [reflexivity|]].
    apply nth_In. apply Nat.mod_upper_bound. discriminate.
Qed.

(** X8. [get_random_user_agent] never raises: it returns what the
    generator gives, and when the generator fails, one of the five
    built-in browser signatures. *)
Theorem user_agent_falls_back w :
  exists user_agent,
    fst (get_random_user_agent w) = inr user_agent
    /\ (ua_random w (tick w) = Some user_agent
        \/ (ua_random w (tick w) = None /\ In user_agent fallback_user_agents))
    /\ trace (snd (get_random_user_agent w)) = trace w.
Proof.
  destruct w as [cfg accts prox hl st tr clk tk sn nt rn ua].
  unfold get_random_user_agent, choice.
  cbv beta iota delta [bind get ret next_tick
    config accounts proxies has_logger store trace clock tick sent net rnd ua_random].
  destruct (ua tk) as [agent|] eqn:E; cbv beta iota; cbn [fst snd trace].
  - exists agent. auto.
  - eexists. split; [reflexivity|]. split; [|reflexivity].
    right. split; [reflexivity|].
    apply nth_In. apply Nat.mod_upper_bound. discriminate.
Qed.

(** ** The phrases of an earlier check-in *)

Lemma startswith_app s p q :
  PyStr.startswith s (p ++ q) = true -> PyStr.startswith s p = true.
Proof.
  revert s. induction p as [|c p IH]; intros s; [intros _; apply startswith_empty|].
  destruct s as [|d s]; cbn [append PyStr.startswith]; [discriminate|].
  intros H. apply andb_true_iff in H as [Hc H]. rewrite Hc. cbn. now apply IH.
Qed.

Lemma contains_app p q s :
  PyStr.contains (p ++ q) s = true -> PyStr.contains p s = true.
Proof.
  induction s as [|d s IH]; cbn [PyStr.contains]; intros H;
    apply orb_true_iff in H as [H|H]; apply orb_true_iff.
  - left. now apply startswith_app with q.
  - discriminate.
  - left. now apply startswith_app with q.
  - right. now apply IH.
Qed.

(** X9. Of the four phrases that [sign_in] looks for, the two ending in
    "today" decide nothing: a response is classified as an earlier
    check-in exactly when its text contains "Already checked in" or
    "already checked in", and any other casing is a fresh success. *)
Theorem two_phrases_decide response_text :
  existsb (fun phrase => PyStr.contains phrase response_text) already_checked_phrases
  = PyStr.contains "Already checked in" response_text
    || PyStr.contains "already checked in" response_text.
Proof.
  cbn [existsb already_checked_phrases].
  pose proof (contains_app "Already checked in" " today" response_text) as HA.
  pose proof (contains_app "already checked in" " today" response_text) as Ha.
  cbn [append] in HA, Ha.
  destruct (PyStr.contains "Already checked in today" response_text);
    destruct (PyStr.contains "already checked in today" response_text);
    destruct (PyStr.contains "Already checked in" response_text);
    destruct (PyStr.contains "already checked in" response_text);
    try reflexivity;
    try (specialize (HA eq_refl); discriminate HA);
    try (specialize (Ha eq_refl); discriminate Ha).
Qed.

(** ** The loaders *)

Lemma lstrip_head s : head_nonspace (PyStr.lstrip s) = true.
Proof.
  induction s as [|c s IH]; [reflexivity|]. cbn [PyStr.lstrip].
  destruct (PyStr.is_space c) eqn:E; [exact IH | cbn; now rewrite E].
Qed.

Lemma lstrip_fixed s : head_nonspace s = true -> PyStr.lstrip s = s.
Proof.
  destruct s as [|c s]; [reflexivity|]. cbn. intros H.
  apply negb_true_iff in H. now rewrite H.
Qed.

Lemma rstrip_head s : head_nonspace s = true -> head_nonspace (PyStr.rstrip s) = true.
Proof.
  destruct s as [|c s]; [reflexivity|]. cbn [head_nonspace PyStr.rstrip]. intros H.
  destruct (PyStr.rstrip s); [|exact H].
  apply negb_true_iff in H. rewrite H. cbn. now rewrite H.
Qed.

Lemma rstrip_idempotent s : PyStr.rstrip (PyStr.rstrip s) = PyStr.rstrip s.
Proof.
  induction s as [|c s IH]; [reflexivity|]. cbn [PyStr.rstrip].
  destruct (PyStr.rstrip s) as [|d t] eqn:E.
  - destruct (PyStr.is_space c) eqn:Ec; [reflexivity|]. cbn. now rewrite Ec.
  - cbn [PyStr.rstrip] in *. now rewrite IH.
Qed.

Lemma strip_idempotent s : PyStr.strip (PyStr.strip s) = PyStr.strip s.
Proof.
  unfold PyStr.strip.
  rewrite (lstrip_fixed (PyStr.rstrip (PyStr.lstrip s)))
    by apply rstrip_head, lstrip_head.
  apply rstrip_idempotent.
Qed.

Lemma collect_proxies_filter lines :
  collect_proxies lines = filter is_proxy_line (map PyStr.strip lines).
Proof.
  induction lines as [|l ls IH]; [reflexivity|].
  cbn [collect_proxies map filter]. unfold is_proxy_line at 1.
  destruct (negb (String.eqb (PyStr.strip l) "")
            && negb (PyStr.startswith (PyStr.strip l) "#")); now rewrite IH.
Qed.

(** X10. [load_proxies] keeps, in file order, the stripped lines that are
    neither empty nor comments: every proxy it returns is non-empty, does
    not start with [#] and has no blank at either end; the file is read
    without a trace.  An absent file gives the empty pool and one printed
    warning. *)
Theorem proxy_lines_are_clean cfg accts lines w :
  load_proxies (mkFiles cfg accts (Content lines)) w
  = (inr (filter is_proxy_line (map PyStr.strip lines)), w)
  /\ Forall (fun proxy => proxy <> "" /\ PyStr.startswith proxy "#" = false
                          /\ PyStr.strip proxy = proxy)
            (filter is_proxy_line (map PyStr.strip lines))
  /\ load_proxies (mkFiles cfg accts Missing) w
     = (inr [], observed w [Print "Warning: proxy.txt file does not exist"]).
Proof.
  split; [|split].
  - unfold load_proxies, try_except, bind. cbn. now rewrite collect_proxies_filter.
  - apply Forall_forall. intros p Hp. apply filter_In in Hp as [Hin Hk].
    apply in_map_iff in Hin as (l & <- & _).
    unfold is_proxy_line in Hk. apply andb_true_iff in Hk as [H1 H2].
    apply negb_true_iff in H1, H2. apply String.eqb_neq in H1.
    split; [exact H1 | split; [exact H2 | apply strip_idempotent]].
  - reflexivity.
Qed.

Lemma collect_accounts_complete : forall entries w,
  forallb complete (filter enabled entries) = true ->
  collect_accounts entries w = (inr (map account_of_entry (filter enabled entries)), w).
Proof.
  induction entries as [|r rest IH]; intros w H; [reflexivity|].
  cbn [collect_accounts filter] in *.
  change (or_default (raw_enabled r) true) with (enabled r).
  destruct (enabled r); [|now apply IH].
  cbn [forallb] in H. apply andb_true_iff in H as [Hr H].
  unfold complete in Hr.
  destruct (raw_name r) as [n|] eqn:En; [|discriminate].
  destruct (raw_session_token r) as [t|] eqn:Et; [|discriminate].
  cbv beta iota delta [bind require ret]. rewrite (IH w H).
  cbn [map]. unfold account_of_entry. now rewrite En, Et.
Qed.

Lemma collect_accounts_incomplete : forall entries w,
  forallb complete (filter enabled entries) = false ->
  exists key,
    collect_accounts entries w = (inl (KeyError key), w)
    /\ (key = "name" \/ key = "session_token").
Proof.
  induction entries as [|r rest IH]; intros w H; [discriminate|].
  cbn [collect_accounts filter] in *.
  change (or_default (raw_enabled r) true) with (enabled r).
  destruct (enabled r); [|now apply IH].
  cbn [forallb] in H. unfold complete in H.
  destruct (raw_name r) as [n|] eqn:En.
  - destruct (raw_session_token r) as [t|] eqn:Et.
    + cbn [andb] in H. destruct (IH w H) as (key & Hk & Hkey).
      exists key. split; [|exact Hkey].
      cbv beta iota delta [bind require ret]. now rewrite Hk.
    + exists "session_token". split; [reflexivity | now right].
  - exists "name". split; [reflexivity | now left].
Qed.

(** X11. [load_accounts] on a parsed accounts file: when every enabled
    entry has a name and a session token, the accounts are the enabled
    entries in file order, with empty cookies and description where the
    file gives none, and nothing is printed; when one enabled entry lacks
    one of the two keys, no account at all is loaded and one warning
    naming the key is printed. *)
Theorem load_accounts_all_or_nothing cfg prox entries w :
  (forallb complete (filter enabled entries) = true ->
   load_accounts (mkFiles cfg (Content entries) prox) w
   = (inr (map account_of_entry (filter enabled entries)), w))
  /\ (forallb complete (filter enabled entries) = false ->
      exists key,
        (key = "name" \/ key = "session_token")
        /\ load_accounts (mkFiles cfg (Content entries) prox) w
           = (inr [],
              observed w [Print ("Warning: JSON account config file format error: "
                                 ++ "'" ++ key ++ "'")])).
Proof.
  split; intros H.
  - unfold load_accounts, try_except2, bind. cbn [accounts_json read_file ret].
    now rewrite (collect_accounts_complete entries w H).
  - destruct (collect_accounts_incomplete entries w H) as (key & Hk & Hkey).
    exists key. split; [exact Hkey|].
    unfold load_accounts, try_except2, bind. cbn [accounts_json read_file ret].
    rewrite Hk. reflexivity.
Qed.

Lemma load_accounts_all_or_nothing_witness :
  let good := mkRawAccount (Some "first") (Some "tok1") None None None in
  let off := mkRawAccount None None None None (Some false) in
  let bad := mkRawAccount (Some "third") None None None (Some true) in
  let w := blank 0 (fun _ => Raises RequestException) (fun _ => O) (fun _ => None) in
  forallb complete (filter enabled [good; off]) = true
  /\ load_accounts (mkFiles Missing (Content [good; off]) Missing) w
     = (inr [mkAccount "first" "tok1" "" ""], w)
  /\ forallb complete (filter enabled [good; off; bad]) = false
  /\ exists key,
       (key = "name" \/ key = "session_token")
       /\ load_accounts (mkFiles Missing (Content [good; off; bad]) Missing) w
          = (inr [],
             observed w [Print ("Warning: JSON account config file format error: "
                                ++ "'" ++ key ++ "'")]).
Proof.
  intros good off bad w.
  split; [reflexivity|].
  split; [exact (proj1 (load_accounts_all_or_nothing Missing Missing [good; off] w) eq_refl)|].
  split; [reflexivity|].
  exact (proj2 (load_accounts_all_or_nothing Missing Missing [good; off; bad] w) eq_refl).
Defined.
